(** * nonocaptcha.speech: the two speech-to-text back ends

    A shallow embedding of [src/nonocaptcha/speech.py]: the classes
    [Amazon] (upload, batch job, poll, fetch) and [Azure] (transcode,
    websocket session, framed messages, receive loop).

    Python values are the ones the file handles: [str] as a list of
    Unicode code points, [bytes] as a list of [Byte.byte], the JSON-shaped
    objects of [json.loads] and of the service clients as [pyval].  An
    awaited call is a computation over a [world] that records the remote
    effects which took place and counts how often each source of outside
    data (clock, uuid, job status, socket) has been read; what the outside
    answers is given by an [env].  Exceptions are values of [exn]. *)

From Stdlib Require Import List String Ascii Strings.Byte NArith ZArith QArith Bool Arith Lia.
From Stdlib Require Import Qround Qpower Lqa.
From Equations Require Import Equations.
Import ListNotations.

Set Implicit Arguments.
Set Warnings "-register-all".
Open Scope N_scope.

(** ** Python strings and bytes *)

(** A [str] is a sequence of code points; [len] counts code points. *)
Definition char := N.
Definition str := list char.
Definition bytes := list byte.

(** A literal of the source, written as a Rocq string. *)
Definition lit (s : string) : str := map N_of_ascii (list_ascii_of_string s).

Definition CR : char := 13.
Definition LF : char := 10.

Fixpoint str_eqb (a b : str) : bool :=
  match a, b with
  | [], [] => true
  | x :: a', y :: b' => (x =? y) && str_eqb a' b'
  | _, _ => false
  end.

Fixpoint startswith (s p : str) : bool :=
  match p, s with
  | [], _ => true
  | y :: p', x :: s' => (x =? y) && startswith s' p'
  | _ :: _, [] => false
  end.

(** [sub in s] on two strings. *)
Fixpoint contains_str (s sub : str) : bool :=
  startswith s sub ||
  match s with
  | [] => false
  | _ :: s' => contains_str s' sub
  end.

Definition is_ascii (s : str) : bool := forallb (fun c => c <? 128) s.

(** A capital letter of Basic Latin. *)
Definition is_upper (c : char) : bool := (65 <=? c) && (c <=? 90).

(** [str.lower] on a code point of Basic Latin: the letters [A]-[Z] move
    by 32, every other code point below 128 stays. *)
Definition ascii_lower (c : char) : char := if is_upper c then c + 32 else c.

(** [s[:-1]]: all but the last element; the empty sequence stays empty. *)
Definition drop_last {A : Type} (s : list A) : list A := removelast s.

(** [s.replace(old, new)] for a non-empty [old]: scan from the left, and
    after a match continue behind it. *)
Fixpoint replace_from (skip : nat) (old new s : str) : str :=
  match s with
  | [] => []
  | c :: s' =>
      match skip with
      | S k => replace_from k old new s'
      | O =>
          if startswith s old
          then new ++ replace_from (List.length old - 1) old new s'
          else c :: replace_from 0 old new s'
      end
  end.

Definition replace (s old new : str) : str := replace_from 0 old new s.

(** ** Exceptions *)

(** The classes the interpreter and the standard library raise on the
    paths of this file, [Foreign] for whatever a collaborator (botocore,
    websockets, pydub, the file system, util.get_page) raises, and the two
    names of the specification's taxonomy that the statements below use; no
    statement of the source raises [TimeoutError] or [ProtocolError]. *)
Inductive exn : Type :=
| AttributeError
| KeyError
| IndexError
| TypeError
| UnboundLocalError
| UnicodeEncodeError
| StructError
| JSONDecodeError
| TimeoutError
| ProtocolError
| Foreign (name : string).

(** ** Encoding *)

Definition byte_of (n : N) : byte :=
  match Byte.of_N (n mod 256) with
  | Some b => b
  | None => x00
  end.

(** UTF-8 of one code point; surrogates cannot be encoded. *)
Definition utf8_char (c : char) : option bytes :=
  if c <? 128 then Some [byte_of c]
  else if c <? 2048 then
    Some [byte_of (192 + c / 64); byte_of (128 + c mod 64)]
  else if c <? 65536 then
    if (55296 <=? c) && (c <=? 57343) then None
    else Some [byte_of (224 + c / 4096);
               byte_of (128 + (c / 64) mod 64);
               byte_of (128 + c mod 64)]
  else if c <? 1114112 then
    Some [byte_of (240 + c / 262144);
          byte_of (128 + (c / 4096) mod 64);
          byte_of (128 + (c / 64) mod 64);
          byte_of (128 + c mod 64)]
  else None.

(** [s.encode()] *)
Fixpoint encode (s : str) : option bytes :=
  match s with
  | [] => Some []
  | c :: s' =>
      match utf8_char c, encode s' with
      | Some b, Some bs => Some (b ++ bs)
      | _, _ => None
      end
  end.

(** [struct.pack(">H", n)]: two bytes, most significant first;
    [struct.error] outside 0..65535. *)
Definition pack_H (n : N) : option bytes :=
  if n <? 65536 then Some [byte_of (n / 256); byte_of (n mod 256)] else None.

(** ** Python floats

    A Python [float] is an IEEE 754 binary64.  Every finite binary64 is a
    rational number, and so is every reading of [time.time()]; the
    rationals that are binary64 values are the ones [float64] leaves as
    they are.  The sum of two floats is the binary64 nearest to their exact
    sum, a tie going to the one with the even significand. *)

(** The nearest integer, a tie going to the even one. *)
Definition round_half_even (x : Q) : Z :=
  let f := Qfloor x in
  match Qcompare (x - inject_Z f) (1 # 2) with
  | Lt => f
  | Gt => (f + 1)%Z
  | Eq => if Z.even f then f else (f + 1)%Z
  end.

(** For a positive [x], the [e] with [2 ^ e <= x < 2 ^ (e + 1)]. *)
Definition exponent (x : Q) : Z :=
  let e := (Z.log2 (Qnum x) - Z.log2 (Zpos (Qden x)))%Z in
  if Qle_bool (2 ^ e) x then e else (e - 1)%Z.

(** The spacing of the binary64 values around a positive [x]: 53
    significant bits, and below [2 ^ -1022] the spacing of the subnormals. *)
Definition ulp (x : Q) : Q := (2 ^ (Z.max (exponent x) (-1022) - 52))%Q.

(** The binary64 nearest to a positive [x]; [2 ^ 1024] stands for [inf],
    which compares above every finite value. *)
Definition round_pos (x : Q) : Q :=
  if Qle_bool (2 ^ 1024) x then (2 ^ 1024)%Q
  else (inject_Z (round_half_even (x / ulp x)) * ulp x)%Q.

Definition float64 (x : Q) : Q :=
  match Qcompare x 0 with
  | Eq => 0%Q
  | Gt => round_pos x
  | Lt => (- round_pos (- x))%Q
  end.

(** [a + b] on two floats. *)
Definition float_add (a b : Q) : Q := float64 (a + b).

Arguments float64 x : simpl never.
Arguments float_add a b : simpl never.

(** ** JSON-shaped values *)

Inductive pyval : Type :=
| PNone
| PBool (b : bool)
| PInt (z : Z)
| PFloat (q : Q)
| PStr (s : str)
| PList (l : list pyval)
| PDict (d : list (str * pyval)).

Inductive key : Type :=
| KStr (s : string)
| KInt (i : nat).

Fixpoint lookup (k : str) (d : list (str * pyval)) : option pyval :=
  match d with
  | [] => None
  | (k', v) :: d' => if str_eqb k' k then Some v else lookup k d'
  end.

Definition is_str (s : str) (v : pyval) : bool :=
  match v with
  | PStr t => str_eqb t s
  | _ => false
  end.

(** ** Outcomes of a call *)

(** A call returns, raises, waits for ever on an awaited collaborator
    ([Blocked]), or is still inside a loop when the iteration budget of the
    model is used up ([Running]). *)
Inductive result (A : Type) : Type :=
| Returned (a : A)
| Raised (e : exn)
| Blocked
| Running.
Arguments Raised {A} e.
Arguments Blocked {A}.
Arguments Running {A}.

Definition bind_result {A B : Type} (r : result A) (f : A -> result B) : result B :=
  match r with
  | Returned a => f a
  | Raised e => Raised e
  | Blocked => Blocked
  | Running => Running
  end.

(** [v[k]] *)
Definition getitem (v : pyval) (k : key) : result pyval :=
  match v, k with
  | PDict d, KStr s =>
      match lookup (lit s) d with
      | Some x => Returned x
      | None => Raised KeyError
      end
  | PDict _, KInt _ => Raised KeyError
  | PList l, KInt i =>
      match nth_error l i with
      | Some x => Returned x
      | None => Raised IndexError
      end
  | PStr s, KInt i =>
      match nth_error s i with
      | Some c => Returned (PStr [c])
      | None => Raised IndexError
      end
  | _, _ => Raised TypeError
  end.

(** [k in v] for a string literal [k] *)
Definition contains (k : string) (v : pyval) : result bool :=
  match v with
  | PDict d =>
      Returned (match lookup (lit k) d with Some _ => true | None => false end)
  | PList l => Returned (existsb (is_str (lit k)) l)
  | PStr s => Returned (contains_str s (lit k))
  | _ => Raised TypeError
  end.

(** ** The world and the collaborators *)

Inductive frame : Type :=
| Text (s : str)
| Binary (b : bytes).

(** Remote effects that took place, oldest first. *)
Inductive event : Type :=
| PutObject (bucket key : str) (body : bytes)
| StartJob (name uri : str)
| GetJob (name : str)
| DeleteObject (bucket key : str)
| GetPage (uri : pyval)
| Sleep (seconds : N)
| Transcode (src dst : str)
| Connect (url : str)
| Send (message : bytes)
| Recv (f : frame)
| Close.

Record world : Type := mkWorld {
  trace : list event;
  uuids : nat;   (* calls of uuid4() *)
  ticks : nat;   (* calls of time.time() *)
  stamps : nat;  (* calls of datetime.utcnow() *)
  polls : nat;   (* calls of get_transcription_job *)
  sends : nat;   (* calls of websocket.send *)
  recvs : nat    (* calls of websocket.recv *)
}.

Definition world0 : world := mkWorld [] 0 0 0 0 0 0.

Inductive arrival : Type :=
| Arrives (f : frame)
| Fails (e : exn)
| Silent.

(** What the outside answers.  A field indexed by [nat] is asked with the
    number of earlier calls of the same kind.  The readings of [time_time]
    are floats.  [str_lower] is [str.lower] as the interpreter's Unicode
    tables define it; it is consulted for the strings that are not ASCII. *)
Record env : Type := mkEnv {
  uuid4_hex : nat -> str;
  time_time : nat -> Q;
  utcnow_isoformat : nat -> str;
  json_loads : str -> option pyval;
  str_lower : str -> str;
  put_object : option exn;
  start_transcription_job : option exn;
  get_transcription_job : nat -> exn + pyval;
  delete_object : option exn;
  get_page : pyval -> exn + str;
  from_mp3_export : str -> str -> option exn;
  open_rb : str -> exn + bytes;
  connect : str -> option exn;
  send : nat -> option exn;
  recv : nat -> arrival
}.

(** ** Computations *)

Definition M (A : Type) : Type := world -> world * result A.

Definition ret {A : Type} (a : A) : M A := fun w => (w, Returned a).

Definition raise {A : Type} (e : exn) : M A := fun w => (w, Raised e).

Definition bind {A B : Type} (m : M A) (f : A -> M B) : M B :=
  fun w =>
    match m w with
    | (w', Returned a) => f a w'
    | (w', Raised e) => (w', Raised e)
    | (w', Blocked) => (w', Blocked)
    | (w', Running) => (w', Running)
    end.

Definition lift {A : Type} (r : result A) : M A := fun w => (w, r).

Declare Scope comp_scope.
Delimit Scope comp_scope with comp.
Notation "x <- m ;; k" := (bind m (fun x => k))
  (at level 61, m at next level, right associativity) : comp_scope.
Notation "m ;;; k" := (bind m (fun _ => k))
  (at level 61, right associativity) : comp_scope.
Open Scope comp_scope.

Definition log (e : event) : M unit :=
  fun w => (mkWorld (trace w ++ [e]) (uuids w) (ticks w) (stamps w)
                    (polls w) (sends w) (recvs w), Returned tt).

(** A remote call that changes something: the effect is recorded when the
    call succeeds. *)
Definition effect (outcome : option exn) (e : event) : M unit :=
  match outcome with
  | None => log e
  | Some x => raise x
  end.

Definition uuid4 (E : env) : M str :=
  fun w => (mkWorld (trace w) (S (uuids w)) (ticks w) (stamps w)
                    (polls w) (sends w) (recvs w),
            Returned (uuid4_hex E (uuids w))).

Definition now (E : env) : M Q :=
  fun w => (mkWorld (trace w) (uuids w) (S (ticks w)) (stamps w)
                    (polls w) (sends w) (recvs w),
            Returned (time_time E (ticks w))).

Definition utcnow (E : env) : M str :=
  fun w => (mkWorld (trace w) (uuids w) (ticks w) (S (stamps w))
                    (polls w) (sends w) (recvs w),
            Returned (utcnow_isoformat E (stamps w))).

Definition sleep (seconds : N) : M unit := log (Sleep seconds).

Definition Qltb (a b : Q) : bool := negb (Qle_bool b a).

(** [s.lower()]: on an ASCII string the letters [A]-[Z] are replaced by
    [a]-[z] and nothing else changes; any other string is lower-cased by
    the interpreter. *)
Definition lower (E : env) (s : str) : str :=
  if is_ascii s then map ascii_lower s else str_lower E s.

Fixpoint count_deletes (t : list event) : nat :=
  match t with
  | [] => 0%nat
  | DeleteObject _ _ :: t' => S (count_deletes t')
  | _ :: t' => count_deletes t'
  end.

(** ** class Amazon *)

Module Amazon.

(** The class attributes read from [settings] that reach the remote calls. *)
Record settings : Type := mkSettings {
  REGION_NAME : str;
  S3_BUCKET : str
}.

(** [status['TranscriptionJob']['TranscriptionJobStatus'] in
    ['COMPLETED', 'FAILED']] *)
Definition terminal (status : pyval) : result bool :=
  bind_result (getitem status (KStr "TranscriptionJob")) (fun job =>
  bind_result (getitem job (KStr "TranscriptionJobStatus")) (fun s =>
  Returned (is_str (lit "COMPLETED") s || is_str (lit "FAILED") s))).

(** [await transcribe.get_transcription_job(TranscriptionJobName=job_name)] *)
Definition query (E : env) (job_name : str) : M pyval :=
  fun w =>
    match get_transcription_job E (polls w) with
    | inl e =>
        (mkWorld (trace w) (uuids w) (ticks w) (stamps w)
                 (S (polls w)) (sends w) (recvs w), Raised e)
    | inr status =>
        (mkWorld (trace w ++ [GetJob job_name]) (uuids w) (ticks w) (stamps w)
                 (S (polls w)) (sends w) (recvs w), Returned status)
    end.

(** Lines 61-71.  [status] is the local variable, [None] while it is not
    bound.  One unit of [fuel] pays for one evaluation of the guard. *)
Fixpoint poll (E : env) (job_name : str) (fuel : nat) (status : option pyval)
  : M (option pyval) :=
  match fuel with
  | O => lift Running
  | S fuel' =>
      t <- now E ;;
      if Qltb 60 t then
        st <- query E job_name ;;
        fin <- lift (terminal st) ;;
        if fin : bool then ret (Some st)
        else sleep 1 ;;; poll E job_name fuel' (Some st)
      else ret status
  end.

(** Lines 74-80. *)
Definition fetch (E : env) (status : option pyval) : M pyval :=
  match status with
  | None => raise UnboundLocalError
  | Some st =>
      job <- lift (getitem st (KStr "TranscriptionJob")) ;;
      tr <- lift (getitem job (KStr "Transcript")) ;;
      has <- lift (contains "TranscriptFileUri" tr) ;;
      if has : bool then
        job' <- lift (getitem st (KStr "TranscriptionJob")) ;;
        tr' <- lift (getitem job' (KStr "Transcript")) ;;
        transcript_uri <- lift (getitem tr' (KStr "TranscriptFileUri")) ;;
        page <- match get_page E transcript_uri with
                | inl e => raise e
                | inr text => log (GetPage transcript_uri) ;;; ret text
                end ;;
        data <- match json_loads E page with
                | Some d => ret d
                | None => raise JSONDecodeError
                end ;;
        results <- lift (getitem data (KStr "results")) ;;
        transcripts <- lift (getitem results (KStr "transcripts")) ;;
        first <- lift (getitem transcripts (KInt 0)) ;;
        transcript <- lift (getitem first (KStr "transcript")) ;;
        ret transcript
      else ret PNone
  end.

Definition get_text (C : settings) (E : env) (fuel : nat) (data : bytes) : M pyval :=
  hex <- uuid4 E ;;
  let filename := hex ++ lit ".mp3" in
  effect (put_object E) (PutObject (S3_BUCKET C) filename data) ;;;
  job_name <- uuid4 E ;;
  let job_uri :=
    lit "https://s3." ++ REGION_NAME C ++ lit ".amazonaws.com/" ++
    S3_BUCKET C ++ lit "/" ++ filename in
  effect (start_transcription_job E) (StartJob job_name job_uri) ;;;
  status <- poll E job_name fuel None ;;
  effect (delete_object E) (DeleteObject (S3_BUCKET C) filename) ;;;
  fetch E status.

End Amazon.

(** ** class Azure *)

Module Azure.

(** An instance: the class attribute [SUB_KEY] and the instance attribute
    [mp3_filename], which no method of the class assigns ([None]: the
    instance has no such attribute). *)
Record instance : Type := mkInstance {
  SUB_KEY : str;
  mp3_filename : option str
}.

(** The blocks [f.read(chunksize)] returns until it returns [b""]. *)
Equations? chunks (chunksize : nat) (data : bytes) : list bytes
  by wf (List.length data) lt :=
  chunks 0 _ := [];
  chunks (S n) [] := [];
  chunks (S n) (b :: rest) :=
    firstn (S n) (b :: rest) :: chunks (S n) (skipn (S n) (b :: rest)).
Proof.
  rewrite length_skipn. lia.
Qed.

Definition bytes_from_file (E : env) (filename : str) (chunksize : nat)
  : M (list bytes) :=
  match open_rb E filename with
  | inl e => raise e
  | inr data => ret (chunks chunksize data)
  end.

Definition mp3_to_wav (E : env) (mp3 : str) : M str :=
  let wav_filename := replace mp3 (lit ".mp3") (lit ".wav") in
  effect (from_mp3_export E mp3 wav_filename) (Transcode mp3 wav_filename) ;;;
  ret wav_filename.

(** [re.search("^\r\n", response, re.M)]: the leftmost CR LF that stands at
    the start of the string or right behind a line feed; the value is
    [m.end()]. *)
Fixpoint search_separator (line_start : bool) (pos : nat) (s : str) : option nat :=
  match s with
  | [] => None
  | c :: rest =>
      if line_start && (c =? CR) &&
         match rest with d :: _ => d =? LF | [] => false end
      then Some (pos + 2)%nat
      else search_separator (c =? LF) (S pos) rest
  end.

Definition extract_json_body (E : env) (response : frame) : result pyval :=
  match response with
  | Binary _ => Raised TypeError
  | Text s =>
      match search_separator true 0 s with
      | None => Raised AttributeError
      | Some e =>
          match json_loads E (skipn e s) with
          | Some content => Returned content
          | None => Raised JSONDecodeError
          end
      end
  end.

Definition header (req_id timestamp : str) : str :=
  lit "X-RequestId: " ++ req_id ++ [CR; LF] ++
  lit "X-Timestamp: " ++ timestamp ++ lit "Z" ++ [CR; LF] ++
  lit "Path: audio" ++ [CR; LF] ++
  lit "Content-Type: audio/x-wav" ++ [CR; LF] ++ [CR; LF].

(** Lines 113-122 for a given reading of the clock. *)
Definition message (req_id timestamp : str) (payload : bytes) : result bytes :=
  let h := header req_id timestamp in
  match pack_H (N.of_nat (List.length h)) with
  | None => Raised StructError
  | Some prefix =>
      match encode h with
      | None => Raised UnicodeEncodeError
      | Some text => Returned (prefix ++ text ++ payload)
      end
  end.

Definition build_message (E : env) (req_id : str) (payload : bytes) : M bytes :=
  timestamp <- utcnow E ;;
  lift (message req_id timestamp payload).

Definition websocket_send (E : env) (m : bytes) : M unit :=
  fun w =>
    let w' := mkWorld (trace w) (uuids w) (ticks w) (stamps w)
                      (polls w) (S (sends w)) (recvs w) in
    effect (send E (sends w)) (Send m) w'.

Definition websocket_recv (E : env) : M frame :=
  fun w =>
    let w' := mkWorld (trace w) (uuids w) (ticks w) (stamps w)
                      (polls w) (sends w) (S (recvs w)) in
    match recv E (recvs w) with
    | Arrives f => (log (Recv f) ;;; ret f) w'
    | Fails e => (w', Raised e)
    | Silent => (w', Blocked)
    end.

Fixpoint send_all (E : env) (req_id : str) (payloads : list bytes) : M unit :=
  match payloads with
  | [] => ret tt
  | payload :: rest =>
      m <- build_message E req_id payload ;;
      websocket_send E m ;;;
      send_all E req_id rest
  end.

Definition send_file (E : env) (filename : str) : M unit :=
  req_id <- uuid4 E ;;
  payloads <- bytes_from_file E filename (N.to_nat 8192) ;;
  send_all E req_id payloads.

(** ["RecognitionStatus" in content and content["RecognitionStatus"] == s] *)
Definition status_is (content : pyval) (s : string) : result bool :=
  bind_result (contains "RecognitionStatus" content) (fun has =>
  if has : bool then
    bind_result (getitem content (KStr "RecognitionStatus")) (fun v =>
    Returned (is_str (lit s) v))
  else Returned false).

(** [answer[:-1].lower()] *)
Definition trim_lower (E : env) (answer : pyval) : result pyval :=
  match answer with
  | PStr s => Returned (PStr (lower E (drop_last s)))
  | PList _ => Raised AttributeError
  | _ => Raised TypeError
  end.

(** Line 141, [time.time() < timeout], for the reading [t] of the clock:
    a comparison of two floats, the reading taken as the float it is. *)
Definition before (t timeout : Q) : bool := Qltb (float64 t) timeout.

Arguments before t timeout : simpl never.

(** Lines 141-155; falling out of the loop ends the function, which then
    returns [None]. *)
Fixpoint receive (E : env) (fuel : nat) (timeout : Q) : M pyval :=
  match fuel with
  | O => lift Running
  | S fuel' =>
      t <- now E ;;
      if before t timeout then
        response <- websocket_recv E ;;
        content <- lift (extract_json_body E response) ;;
        success <- lift (status_is content "Success") ;;
        if success : bool then
          nbest <- lift (getitem content (KStr "NBest")) ;;
          first <- lift (getitem nbest (KInt 0)) ;;
          answer <- lift (getitem first (KStr "Display")) ;;
          lift (trim_lower E answer)
        else
          finished <- lift (status_is content "EndOfDictation") ;;
          if finished : bool then ret PNone
          else sleep 1 ;;; receive E fuel' timeout
      else ret PNone
  end.

(** [async with websockets.connect(url) as websocket]: the session is
    closed when the block is left, by a return or by an exception. *)
Definition with_session {A : Type} (E : env) (url : str) (body : M A) : M A :=
  effect (connect E url) (Connect url) ;;;
  fun w =>
    match body w with
    | (w', Returned a) => (fst (log Close w'), Returned a)
    | (w', Raised e) => (fst (log Close w'), Raised e)
    | (w', Blocked) => (w', Blocked)
    | (w', Running) => (w', Running)
    end.

Definition url_of (self : instance) (conn_id : str) : str :=
  lit "wss://speech.platform.bing.com/speech/recognition/dictation/cogn" ++
  lit "itiveservices/v1?language=en-US&Ocp-Apim-Subscription-Key=" ++
  SUB_KEY self ++ lit "&X-ConnectionId=" ++ conn_id ++ lit "&format=detailed".

(** [arg] is the parameter [mp3_filename] of the source, which line 131
    does not read.  Line 140 adds 15 to the reading of the clock as floats
    are added. *)
Definition get_text (E : env) (self : instance) (fuel : nat) (arg : str) : M pyval :=
  attr <- match mp3_filename self with
          | Some f => ret f
          | None => raise AttributeError
          end ;;
  wav_filename <- mp3_to_wav E attr ;;
  conn_id <- uuid4 E ;;
  with_session E (url_of self conn_id)
    (send_file E wav_filename ;;;
     t0 <- now E ;;
     let timeout := float_add t0 15 in
     receive E fuel timeout).

End Azure.

(** ** A JSON decoder to run examples with

    [json.loads] is a field of [env], and the theorems below hold for
    whatever it answers.  The closed examples need one decoder to compute
    with: this one reads objects, arrays, strings with the one-letter
    escapes, integers and the three constants, and rejects everything
    else, numbers with a fraction or an exponent among it. *)

Module Json.

Definition is_ws (c : char) : bool :=
  (c =? 32) || (c =? 9) || (c =? 10) || (c =? 13).

Fixpoint skip_ws (s : str) : str :=
  match s with
  | c :: s' => if is_ws c then skip_ws s' else s
  | [] => []
  end.

Definition unescape (c : char) : option char :=
  if c =? 34 then Some 34
  else if c =? 92 then Some 92
  else if c =? 47 then Some 47
  else if c =? 110 then Some 10
  else if c =? 114 then Some 13
  else if c =? 116 then Some 9
  else if c =? 98 then Some 8
  else if c =? 102 then Some 12
  else None.

(** The text of a string, behind its opening quote. *)
Fixpoint chars (acc : str) (s : str) : option (str * str) :=
  match s with
  | [] => None
  | c :: rest =>
      if c =? 34 then Some (rev acc, rest)
      else if c =? 92 then
        match rest with
        | e :: rest' =>
            match unescape e with
            | Some u => chars (u :: acc) rest'
            | None => None
            end
        | [] => None
        end
      else if c <? 32 then None
      else chars (c :: acc) rest
  end.

Definition is_digit (c : char) : bool := (48 <=? c) && (c <=? 57).

Fixpoint digits (acc : N) (s : str) : N * str :=
  match s with
  | c :: rest => if is_digit c then digits (10 * acc + (c - 48)) rest else (acc, s)
  | [] => (acc, [])
  end.

Definition number (s : str) : option (Z * str) :=
  match s with
  | c :: rest =>
      if is_digit c then
        let (n, r) := digits 0 s in
        match r with
        | d :: _ => if (d =? 46) || (d =? 101) || (d =? 69) then None
                    else Some (Z.of_N n, r)
        | [] => Some (Z.of_N n, r)
        end
      else None
  | [] => None
  end.

(** A later member with the same name replaces the earlier one. *)
Fixpoint set_member (k : str) (v : pyval) (d : list (str * pyval)) : list (str * pyval) :=
  match d with
  | [] => [(k, v)]
  | (k', v') :: d' =>
      if str_eqb k' k then (k', v) :: d' else (k', v') :: set_member k v d'
  end.

Fixpoint value (fuel : nat) (s : str) : option (pyval * str) :=
  match fuel with
  | O => None
  | S f =>
      let s1 := skip_ws s in
      match s1 with
      | [] => None
      | c :: rest =>
          if c =? 34 then
            match chars [] rest with
            | Some (t, r) => Some (PStr t, r)
            | None => None
            end
          else if c =? 91 then
            match skip_ws rest with
            | d :: r => if d =? 93 then Some (PList [], r) else elements f [] rest
            | [] => None
            end
          else if c =? 123 then
            match skip_ws rest with
            | d :: r => if d =? 125 then Some (PDict [], r) else members f [] rest
            | [] => None
            end
          else if startswith s1 (lit "true") then Some (PBool true, skipn 4 s1)
          else if startswith s1 (lit "false") then Some (PBool false, skipn 5 s1)
          else if startswith s1 (lit "null") then Some (PNone, skipn 4 s1)
          else if c =? 45 then
            match number rest with
            | Some (z, r) => Some (PInt (- z), r)
            | None => None
            end
          else
            match number s1 with
            | Some (z, r) => Some (PInt z, r)
            | None => None
            end
      end
  end
with elements (fuel : nat) (acc : list pyval) (s : str) : option (pyval * str) :=
  match fuel with
  | O => None
  | S f =>
      match value f s with
      | Some (v, r) =>
          match skip_ws r with
          | d :: r' =>
              if d =? 44 then elements f (v :: acc) r'
              else if d =? 93 then Some (PList (rev (v :: acc)), r')
              else None
          | [] => None
          end
      | None => None
      end
  end
with members (fuel : nat) (acc : list (str * pyval)) (s : str) : option (pyval * str) :=
  match fuel with
  | O => None
  | S f =>
      match skip_ws s with
      | q :: r0 =>
          if q =? 34 then
            match chars [] r0 with
            | Some (k, r1) =>
                match skip_ws r1 with
                | colon :: r2 =>
                    if colon =? 58 then
                      match value f r2 with
                      | Some (v, r3) =>
                          match skip_ws r3 with
                          | d :: r4 =>
                              if d =? 44 then members f (set_member k v acc) r4
                              else if d =? 125 then Some (PDict (set_member k v acc), r4)
                              else None
                          | [] => None
                          end
                      | None => None
                      end
                    else None
                | [] => None
                end
            | None => None
            end
          else None
      | [] => None
      end
  end.

Definition loads (s : str) : option pyval :=
  match value (S (List.length s)) s with
  | Some (v, r) => match skip_ws r with [] => Some v | _ :: _ => None end
  | None => None
  end.

(** JSON text of an example, written with ['] where JSON has the double
    quote. *)
Definition text (s : string) : str :=
  map (fun c => if c =? 39 then 34 else c) (lit s).

End Json.

(** ** Example environments *)

Module Examples.

Definition cfg : Amazon.settings :=
  Amazon.mkSettings (lit "us-east-1") (lit "captcha-audio").

Definition clip : bytes := [x49; x44; x33; x03; x00].

Definition epoch : Q := 1541318400.

(** A wall clock that advances by one second from one reading to the next. *)
Definition wall_clock (k : nat) : Q := (epoch + inject_Z (Z.of_nat k))%Q.

(** [str.lower] on the code points of Latin-1, where the capitals move by
    32; the examples hold ASCII text only and never ask for more. *)
Definition latin1_lower (s : str) : str :=
  map (fun c => if ((65 <=? c) && (c <=? 90)) ||
                   ((192 <=? c) && (c <=? 222) && negb (c =? 215))
                then c + 32 else c) s.

Definition hex (k : nat) : str :=
  match k with
  | O => lit "0123456789abcdef0123456789abcdef"
  | _ => lit "fedcba9876543210fedcba9876543210"
  end.

(** Every collaborator but the job submission succeeds; the clock reads
    [clock], the job answers [jobs], the result page is [page], the socket
    delivers [frames]. *)
Definition outside (clock : nat -> Q) (start : option exn)
    (jobs : nat -> exn + pyval) (page : str) (frames : nat -> arrival) : env :=
  {| uuid4_hex := hex;
     time_time := clock;
     utcnow_isoformat := fun _ => lit "2018-11-04T08:00:00.000123";
     json_loads := Json.loads;
     str_lower := latin1_lower;
     put_object := None;
     start_transcription_job := start;
     get_transcription_job := jobs;
     delete_object := None;
     get_page := fun _ => inr page;
     from_mp3_export := fun _ _ => None;
     open_rb := fun _ => inr clip;
     connect := fun _ => None;
     send := fun _ => None;
     recv := frames |}.

Definition job_record (members : list (str * pyval)) : pyval :=
  PDict [(lit "TranscriptionJob", PDict members)].

Definition in_progress : pyval :=
  job_record [(lit "TranscriptionJobStatus", PStr (lit "IN_PROGRESS"))].

Definition completed : pyval :=
  job_record
    [(lit "TranscriptionJobStatus", PStr (lit "COMPLETED"));
     (lit "Transcript",
      PDict [(lit "TranscriptFileUri", PStr (lit "https://s3.amazonaws.com/out/job.json"))])].

(** A failed job as a record without a [Transcript] member. *)
Definition failed_bare : pyval :=
  job_record
    [(lit "TranscriptionJobStatus", PStr (lit "FAILED"));
     (lit "FailureReason", PStr (lit "Unsupported media"))].


Definition result_page : str :=
  Json.text "{'results': {'transcripts': [{'transcript': 'Three one nine.'}], 'items': []}}".

(** Two polls find the job running, the third finds [final]. *)
Definition third_time (final : pyval) (k : nat) : exn + pyval :=
  match k with
  | 0%nat | 1%nat => inr in_progress
  | _ => inr final
  end.

Definition no_frames (k : nat) : arrival := Silent.

Definition batch (final : pyval) : env :=
  outside wall_clock None (third_time final) result_page no_frames.

(** The job never leaves [IN_PROGRESS]. *)
Definition batch_stuck : env :=
  outside wall_clock None (fun _ => inr in_progress) result_page no_frames.

(** The same job on a machine whose clock still reads the first minute
    after the epoch. *)
Definition batch_early : env :=
  outside (fun k => inject_Z (Z.of_nat k)) None (fun _ => inr in_progress)
          result_page no_frames.

(** The second status query is refused. *)
Definition batch_refused : env :=
  outside wall_clock None
          (fun k => match k with
                    | 1%nat => inl (Foreign "ClientError")
                    | _ => inr in_progress
                    end)
          result_page no_frames.

Definition batch_rejected : env :=
  outside wall_clock (Some (Foreign "ClientError")) (third_time completed) result_page no_frames.

(** A text frame: header lines, the empty line, the body. *)
Definition reply (path body : string) : frame :=
  Text (lit "X-RequestId: 0123456789ABCDEF" ++ [CR; LF] ++
        lit "Content-Type: application/json; charset=utf-8" ++ [CR; LF] ++
        lit "Path: " ++ lit path ++ [CR; LF] ++ [CR; LF] ++
        Json.text body).

Definition hypothesis_frame : frame :=
  reply "speech.hypothesis" "{'Text':'seven','Offset':100000,'Duration':4000000}".

Definition phrase (display : string) : frame :=
  reply "speech.phrase"
    ("{'RecognitionStatus':'Success','Offset':100000,'NBest':[{'Confidence':1,'Display':'"
       ++ display ++ "'}]}").

Definition end_frame : frame :=
  reply "speech.phrase" "{'RecognitionStatus':'EndOfDictation','Offset':100000}".

(** The same body right behind one header line, no empty line between. *)
Definition bare_text : str :=
  lit "Path: speech.phrase" ++ [CR; LF] ++
  Json.text "{'RecognitionStatus':'EndOfDictation'}".

Definition bare_frame : frame := Text bare_text.

(** Two hypotheses, then [final]. *)
Definition after_two (final : frame) (k : nat) : arrival :=
  match k with
  | 0%nat | 1%nat => Arrives hypothesis_frame
  | _ => Arrives final
  end.

Definition stream (final : frame) : env :=
  outside wall_clock None (fun _ => inr in_progress) result_page (after_two final).

(** The socket delivers hypotheses only. *)
Definition stream_open : env :=
  outside wall_clock None (fun _ => inr in_progress) result_page (fun _ => Arrives hypothesis_frame).

(** A clock that reads 0.1 at line 140 and 15.1 at the first loop guard,
    each as the float nearest to it. *)
Definition tenths (k : nat) : Q :=
  float64 ((1 # 10) + 15 * inject_Z (Z.of_nat k)).

(** Hypotheses only, on that clock. *)
Definition stream_tenths : env :=
  outside tenths None (fun _ => inr in_progress) result_page
          (fun _ => Arrives hypothesis_frame).

(** The socket delivers nothing. *)
Definition stream_silent : env :=
  outside wall_clock None (fun _ => inr in_progress) result_page no_frames.

Definition speaker : Azure.instance :=
  Azure.mkInstance (lit "subscription-key") (Some (lit "audio/clip.mp3")).

(** An instance on which [mp3_filename] was never assigned. *)
Definition fresh : Azure.instance :=
  Azure.mkInstance (lit "subscription-key") None.

(** [E] with another file behind every name and another socket for
    sending. *)
Definition with_file (E : env) (data : bytes) (sending : nat -> option exn) : env :=
  {| uuid4_hex := uuid4_hex E;
     time_time := time_time E;
     utcnow_isoformat := utcnow_isoformat E;
     json_loads := json_loads E;
     str_lower := str_lower E;
     put_object := put_object E;
     start_transcription_job := start_transcription_job E;
     get_transcription_job := get_transcription_job E;
     delete_object := delete_object E;
     get_page := get_page E;
     from_mp3_export := from_mp3_export E;
     open_rb := fun _ => inr data;
     connect := connect E;
     send := sending;
     recv := recv E |}.

(** A file of two blocks, the second of eight bytes. *)
Definition long_clip : bytes := repeat x2a (N.to_nat 8200).

(** A socket that takes one message and is closed at the second. *)
Definition closes_at_second (k : nat) : option exn :=
  match k with
  | 1%nat => Some (Foreign "ConnectionClosed")
  | _ => None
  end.

Definition stream_cut (final : frame) : env :=
  with_file (stream final) long_clip closes_at_second.

End Examples.

(** ** The vocabulary of the statements *)

Import Examples.

(** [w'] continues [w] without a further delete. *)
Definition keeps (w w' : world) : Prop :=
  exists t, trace w' = trace w ++ t /\ count_deletes t = 0%nat.

(** Every status query answers with a record that carries a job status. *)
Definition answers (E : env) : Prop :=
  forall k, exists st b,
    get_transcription_job E k = inr st /\ Amazon.terminal st = Returned b.

(** [n] rounds that find the clock beyond the bound and the job not yet
    finished, counted from the readings of [w]. *)
Definition job_pending (E : env) (w : world) (n : nat) : Prop :=
  forall i, (i < n)%nat ->
    Qltb 60 (time_time E (ticks w + i)) = true /\
    exists st, get_transcription_job E (polls w + i) = inr st /\
               Amazon.terminal st = Returned false.


(** The name of the uploaded object, line 43. *)
Definition object_key (E : env) : str := uuid4_hex E 0 ++ lit ".mp3".

Definition job_uri (C : Amazon.settings) (E : env) : str :=
  lit "https://s3." ++ Amazon.REGION_NAME C ++ lit ".amazonaws.com/" ++
  Amazon.S3_BUCKET C ++ lit "/" ++ object_key E.

(** The world once the upload and the submission have succeeded. *)
Definition submitted (C : Amazon.settings) (E : env) (data : bytes) : world :=
  mkWorld [PutObject (Amazon.S3_BUCKET C) (object_key E) data;
           StartJob (uuid4_hex E 1) (job_uri C E)] 2 0 0 0 0 0.

(** Lines 72-80 behind the loop. *)
Definition after_poll (C : Amazon.settings) (E : env)
    (polled : world * result (option pyval)) : world * result pyval :=
  match polled with
  | (w, Returned status) =>
      match delete_object E with
      | None =>
          Amazon.fetch E status
            (mkWorld (trace w ++ [DeleteObject (Amazon.S3_BUCKET C) (object_key E)])
                     (uuids w) (ticks w) (stamps w) (polls w) (sends w) (recvs w))
      | Some e => (w, Raised e)
      end
  | (w, Raised e) => (w, Raised e)
  | (w, Blocked) => (w, Blocked)
  | (w, Running) => (w, Running)
  end.

(** Lines 131-139: transcode, connect, send the file. *)
Definition open_and_send (E : env) (self : Azure.instance) : M unit :=
  attr <- match Azure.mp3_filename self with
          | Some f => ret f
          | None => raise AttributeError
          end ;;
  wav_filename <- Azure.mp3_to_wav E attr ;;
  conn_id <- uuid4 E ;;
  effect (connect E (Azure.url_of self conn_id))
         (Connect (Azure.url_of self conn_id)) ;;;
  Azure.send_file E wav_filename.

(** Leaving the [async with] block. *)
Definition close_after {A : Type} (out : world * result A) : world * result A :=
  match out with
  | (w, Returned a) => (fst (log Close w), Returned a)
  | (w, Raised e) => (fst (log Close w), Raised e)
  | (w, Blocked) => (w, Blocked)
  | (w, Running) => (w, Running)
  end.

(** Lines 140-155. *)
Definition listen (E : env) (fuel : nat) : M pyval :=
  t0 <- now E ;;
  Azure.receive E fuel (float_add t0 15).

(** Neither of the two tests of the loop body holds for [content]. *)
Definition idle (content : pyval) : Prop :=
  Azure.status_is content "Success" = Returned false /\
  Azure.status_is content "EndOfDictation" = Returned false.

(** [n] rounds that start ahead of [timeout] and read a frame that parses
    and is not final, counted from the readings of [w]. *)
Definition rounds_idle (E : env) (timeout : Q) (w : world) (n : nat) : Prop :=
  forall i, (i < n)%nat ->
    Azure.before (time_time E (ticks w + i)) timeout = true /\
    exists f content,
      recv E (recvs w + i) = Arrives f /\
      Azure.extract_json_body E f = Returned content /\
      idle content.

(** The bound of line 140 when the clock is first read there: the float
    [time.time() + 15]. *)
Definition deadline (E : env) : Q := float_add (time_time E 0) 15.

(** The readings when the loop is entered: the clock has been read once,
    the socket not yet. *)
Definition listening : world := mkWorld [] 0 1 0 0 0 0.

(** [pre] ends where a line starts. *)
Definition line_start (pre : str) : Prop :=
  pre = [] \/ exists p, pre = p ++ [LF].

(** [s] has an empty line: a CR LF at the start of a line. *)
Definition separated (s : str) : Prop :=
  exists pre post, s = pre ++ CR :: LF :: post /\ line_start pre.

(** Reading a message back the way the specification words it: the two
    bytes of the prefix as a big-endian number, then a split of the rest
    at that length. *)
Definition decode_frame (m : bytes) : option (bytes * bytes) :=
  match m with
  | hi :: lo :: rest =>
      let n := N.to_nat (256 * Byte.to_N hi + Byte.to_N lo) in
      if (n <=? List.length rest)%nat
      then Some (firstn n rest, skipn n rest)
      else None
  | _ => None
  end.

(** The payload of a message, read back with [decode_frame]. *)
Definition payload_of (m : bytes) : bytes :=
  match decode_frame m with
  | Some (_, payload) => payload
  | None => []
  end.

(** [m] is a message of the attempt [req_id] that carries [payload]: its
    prefix delimits the encoded header of that request id, for some
    timestamp, and the rest is the payload. *)
Definition carries (req_id : str) (m payload : bytes) : Prop :=
  exists timestamp text,
    encode (Azure.header req_id timestamp) = Some text /\
    decode_frame m = Some (text, payload).

(** Request id and timestamps are ASCII and every header is short enough
    for the prefix. *)
Definition plain_headers (E : env) (req_id : str) : Prop :=
  is_ascii req_id = true /\
  forall k,
    is_ascii (utcnow_isoformat E k) = true /\
    N.of_nat (List.length (Azure.header req_id (utcnow_isoformat E k))) < 65536.

Fixpoint count_sends (t : list event) : nat :=
  match t with
  | [] => 0%nat
  | Send _ :: t' => S (count_sends t')
  | _ :: t' => count_sends t'
  end.

Fixpoint count_connects (t : list event) : nat :=
  match t with
  | [] => 0%nat
  | Connect _ :: t' => S (count_connects t')
  | _ :: t' => count_connects t'
  end.

Fixpoint count_closes (t : list event) : nat :=
  match t with
  | [] => 0%nat
  | Close :: t' => S (count_closes t')
  | _ :: t' => count_closes t'
  end.

Definition session_event (e : event) : bool :=
  match e with
  | Connect _ | Close => true
  | _ => false
  end.

(** What a session leaves in the trace: its opening, the messages sent,
    the frames read, the pauses of the loop, its closing. *)
Definition online_event (e : event) : bool :=
  match e with
  | Connect _ | Send _ | Recv _ | Sleep _ | Close => true
  | _ => false
  end.

(** [w'] continues [w] without opening or closing a session. *)
Definition calm (w w' : world) : Prop :=
  exists t, trace w' = trace w ++ t /\
            forallb (fun e => negb (session_event e)) t = true.

(** The call is over: it returned or raised. *)
Definition ended {A : Type} (r : result A) : bool :=
  match r with
  | Returned _ | Raised _ => true
  | Blocked | Running => false
  end.

(** Lines 148-149: [content["NBest"][0]["Display"][:-1].lower()]. *)
Definition best_answer (E : env) (content : pyval) : result pyval :=
  bind_result (getitem content (KStr "NBest")) (fun nbest =>
  bind_result (getitem nbest (KInt 0)) (fun first =>
  bind_result (getitem first (KStr "Display")) (Azure.trim_lower E))).

(** Between two readings of the clock at the loop guard at least one
    second passes, and none is lost between line 140 and the first
    reading: reading [k + 1] is at least [k] seconds after reading 0. *)
Definition clock_advances (E : env) : Prop :=
  forall k, (time_time E 0 + inject_Z (Z.of_nat k) <= time_time E (S k))%Q.

(** What [n] rounds on a pending job leave in the trace: a status query
    and a sleep of one second each. *)
Definition waiting (job_name : str) (n : nat) : list event :=
  List.concat (repeat [GetJob job_name; Sleep 1] n).

(** [w'] continues [w] by events of the kind [allowed] only. *)
Definition grows (allowed : event -> bool) (w w' : world) : Prop :=
  exists t, trace w' = trace w ++ t /\ forallb allowed t = true.

Definition poll_event (e : event) : bool :=
  match e with
  | GetJob _ | Sleep _ => true
  | _ => false
  end.

Definition page_event (e : event) : bool :=
  match e with
  | GetPage _ => true
  | _ => false
  end.

(** The bytes a computation returned, none otherwise. *)
Definition snd_message (out : world * result bytes) : bytes :=
  match snd out with
  | Returned m => m
  | _ => []
  end.



(** No capital letter of Basic Latin occurs in [s]. *)
Definition lower_case (s : str) : bool :=
  forallb (fun c => negb (is_upper c)) s.



(** * Facts *)

(** ** Floats *)

Section Floats.

Local Open Scope Q_scope.

Lemma round_half_even_bounds (x : Q) : (Qfloor x <= round_half_even x <= Qfloor x + 1)%Z.
Proof.
  unfold round_half_even. cbv zeta.
  destruct (Qcompare _ _); [destruct (Z.even _)| |]; lia.
Qed.

Lemma round_half_even_mono (x y : Q) : x <= y -> (round_half_even x <= round_half_even y)%Z.
Proof.
  intros H. pose proof (Qfloor_resp_le _ _ H) as Hf.
  destruct (Z.eq_dec (Qfloor x) (Qfloor y)) as [He|Hne].
  - unfold round_half_even. cbv zeta. rewrite He.
    destruct (Qcompare_spec (x - inject_Z (Qfloor y)) (1 # 2)) as [Hx|Hx|Hx],
             (Qcompare_spec (y - inject_Z (Qfloor y)) (1 # 2)) as [Hy|Hy|Hy];
      try destruct (Z.even (Qfloor y)); try lia; exfalso; lra.
  - pose proof (round_half_even_bounds x). pose proof (round_half_even_bounds y). lia.
Qed.

Lemma round_half_even_inject_Z (z : Z) : round_half_even (inject_Z z) = z.
Proof.
  unfold round_half_even. cbv zeta. rewrite Qfloor_Z.
  destruct (Qcompare_spec (inject_Z z - inject_Z z) (1 # 2)) as [H|H|H];
    try reflexivity; exfalso; lra.
Qed.


Lemma two_neq_0 : ~ 2 == 0.
Proof. intros H. discriminate H. Qed.

Lemma pow2_pos (k : Z) : 0 < 2 ^ k.
Proof. apply Qpower_0_lt. reflexivity. Qed.

Lemma div_lt_div (n d P p : Q) :
  0 <= n -> n < P -> 0 < p -> p <= d -> n / d < P / p.
Proof.
  intros Hn HP Hp Hd. apply Qlt_shift_div_l; [exact Hp|].
  apply Qle_lt_trans with n; [|exact HP].
  setoid_replace (n / d * p) with (n * p / d) by (field; lra).
  apply Qle_shift_div_r; [lra | nra].
Qed.

Lemma div_le_div (P p n d : Q) :
  0 <= P -> P <= n -> 0 < d -> d <= p -> P / p <= n / d.
Proof.
  intros HP Hn Hd Hp. apply Qle_shift_div_l; [exact Hd|].
  apply Qle_trans with P; [|exact Hn].
  setoid_replace (P / p * d) with (P * d / p) by (field; lra).
  apply Qle_shift_div_r; [lra | nra].
Qed.

Lemma exponent_spec (x : Q) :
  0 < x -> 2 ^ exponent x <= x /\ x < 2 ^ (exponent x + 1).
Proof.
  intros Hx. destruct x as [n d].
  assert (Hn : (0 < n)%Z) by (unfold Qlt in Hx; simpl in Hx; lia).
  unfold exponent. cbn [Qnum Qden].
  pose proof (Z.log2_nonneg n) as Ha0.
  pose proof (Z.log2_nonneg (Zpos d)) as Hb0.
  destruct (Z.log2_spec n Hn) as [Ha1 Ha2].
  destruct (Z.log2_spec (Zpos d) (Pos2Z.is_pos d)) as [Hb1 Hb2].
  set (a := Z.log2 n) in *. set (b := Z.log2 (Zpos d)) in *.
  unfold Z.succ in Ha2, Hb2.
  rewrite Zle_Qle, Zpower_Qpower in Ha1, Hb1 by lia.
  rewrite Zlt_Qlt, Zpower_Qpower in Ha2, Hb2 by lia.
  change (inject_Z 2) with 2 in *.
  assert (Hnq : 0 < inject_Z n) by (unfold Qlt; simpl; lia).
  assert (Hdq : 0 < inject_Z (Zpos d)) by reflexivity.
  destruct (Qle_bool (2 ^ (a - b)) (n # d)) eqn:Ht.
  - split; [apply Qle_bool_iff; exact Ht|].
    rewrite (Qmake_Qdiv n d).
    replace (a - b + 1)%Z with (a + 1 - b)%Z by lia.
    rewrite Qpower_minus by exact two_neq_0.
    apply div_lt_div; [lra | exact Ha2 | apply pow2_pos | exact Hb1].
  - split.
    + rewrite (Qmake_Qdiv n d).
      replace (a - b - 1)%Z with (a - (b + 1))%Z by lia.
      rewrite Qpower_minus by exact two_neq_0.
      apply div_le_div; [apply Qlt_le_weak, pow2_pos | exact Ha1 | exact Hdq | lra].
    + replace (a - b - 1 + 1)%Z with (a - b)%Z by lia.
      apply Qnot_le_lt. intros Hc. apply Qle_bool_iff in Hc. congruence.
Qed.

Lemma exponent_mono (x y : Q) :
  0 < x -> x <= y -> (exponent x <= exponent y)%Z.
Proof.
  intros Hx Hxy.
  destruct (exponent_spec Hx) as [H1 _].
  destruct (exponent_spec (Qlt_le_trans _ _ _ Hx Hxy)) as [_ H2].
  assert (H : 2 ^ exponent x < 2 ^ (exponent y + 1)) by lra.
  apply Qpower_lt_compat_l_inv in H; [lia | reflexivity].
Qed.

Lemma pow2_split (a k : Z) :
  (k <= a)%Z -> 2 ^ a == inject_Z (2 ^ (a - k)) * 2 ^ k.
Proof.
  intros H. rewrite Zpower_Qpower by lia. change (inject_Z 2) with 2.
  rewrite <- Qpower_plus by exact two_neq_0.
  replace (a - k + k)%Z with a by lia. reflexivity.
Qed.

(** Rounding to a multiple of [q] does not cross a multiple of [q]. *)
Lemma round_le (q x : Q) (z : Z) :
  0 < q -> x <= inject_Z z * q ->
  inject_Z (round_half_even (x / q)) * q <= inject_Z z * q.
Proof.
  intros Hq H. apply Qmult_le_compat_r; [|lra].
  rewrite <- Zle_Qle. rewrite <- (round_half_even_inject_Z z).
  apply round_half_even_mono. apply Qle_shift_div_r; assumption.
Qed.

Lemma round_ge (q x : Q) (z : Z) :
  0 < q -> inject_Z z * q <= x ->
  inject_Z z * q <= inject_Z (round_half_even (x / q)) * q.
Proof.
  intros Hq H. apply Qmult_le_compat_r; [|lra].
  rewrite <- Zle_Qle. rewrite <- (round_half_even_inject_Z z).
  apply round_half_even_mono. apply Qle_shift_div_l; assumption.
Qed.

Lemma round_pos_mono (x y : Q) :
  0 < x -> x <= y -> round_pos x <= round_pos y.
Proof.
  intros Hx Hxy. assert (Hy : 0 < y) by lra.
  pose proof (exponent_mono Hx Hxy) as He.
  destruct (exponent_spec Hx) as [Hx1 Hx2].
  destruct (exponent_spec Hy) as [Hy1 Hy2].
  unfold round_pos.
  destruct (Qle_bool (2 ^ 1024) y) eqn:Hoy.
  - destruct (Qle_bool (2 ^ 1024) x) eqn:Hox; [apply Qle_refl|].
    assert (Hlt : x < 2 ^ 1024).
    { apply Qnot_le_lt. intros Hc. apply Qle_bool_iff in Hc. congruence. }
    assert (Hex : (exponent x < 1024)%Z).
    { apply Qpower_lt_compat_l_inv with 2; [lra | reflexivity]. }
    unfold ulp. set (k := (Z.max (exponent x) (-1022) - 52)%Z).
    rewrite (@pow2_split 1024 k) by lia.
    apply round_le; [apply pow2_pos|].
    rewrite <- (@pow2_split 1024 k) by lia. lra.
  - assert (Hlt : y < 2 ^ 1024).
    { apply Qnot_le_lt. intros Hc. apply Qle_bool_iff in Hc. congruence. }
    destruct (Qle_bool (2 ^ 1024) x) eqn:Hox.
    { apply Qle_bool_iff in Hox. lra. }
    unfold ulp.
    set (kx := (Z.max (exponent x) (-1022) - 52)%Z).
    set (ky := (Z.max (exponent y) (-1022) - 52)%Z).
    destruct (Z.eq_dec kx ky) as [Hk|Hk].
    + rewrite Hk. apply Qmult_le_compat_r; [|apply Qlt_le_weak, pow2_pos].
      rewrite <- Zle_Qle. apply round_half_even_mono.
      apply Qmult_le_compat_r; [exact Hxy|].
      apply Qlt_le_weak, Qinv_lt_0_compat, pow2_pos.
    + assert (Hey : (kx < ky)%Z /\ ky = (exponent y - 52)%Z /\
                    (exponent x < exponent y)%Z) by lia.
      destruct Hey as [Hkk [Hky Hee]].
      apply Qle_trans with (2 ^ exponent y).
      * rewrite (@pow2_split (exponent y) kx) by lia.
        apply round_le; [apply pow2_pos|].
        rewrite <- (@pow2_split (exponent y) kx) by lia.
        apply Qle_trans with (2 ^ (exponent x + 1)); [lra|].
        apply Qpower_le_compat_l; [lia | discriminate].
      * rewrite (@pow2_split (exponent y) ky) at 1 by lia.
        apply round_ge; [apply pow2_pos|].
        rewrite <- (@pow2_split (exponent y) ky) by lia. exact Hy1.
Qed.

Lemma round_pos_nonneg (x : Q) : 0 < x -> 0 <= round_pos x.
Proof.
  intros Hx. unfold round_pos. destruct (Qle_bool _ _).
  - apply Qlt_le_weak, pow2_pos.
  - setoid_replace 0 with (inject_Z 0 * ulp x) by ring.
    apply round_ge; [apply pow2_pos|]. ring_simplify. lra.
Qed.

Lemma float64_mono (x y : Q) : x <= y -> float64 x <= float64 y.
Proof.
  intros H. unfold float64.
  destruct (Qcompare_spec x 0) as [Hx|Hx|Hx],
           (Qcompare_spec y 0) as [Hy|Hy|Hy]; try (exfalso; lra).
  - apply Qle_refl.
  - apply round_pos_nonneg. exact Hy.
  - assert (0 <= round_pos (- x)) by (apply round_pos_nonneg; lra). lra.
  - apply Qopp_le_compat. apply round_pos_mono; lra.
  - assert (0 <= round_pos (- x)) by (apply round_pos_nonneg; lra).
    assert (0 <= round_pos y) by (apply round_pos_nonneg; lra). lra.
  - apply round_pos_mono; lra.
Qed.

Lemma before_lt (x s : Q) : Qltb (float64 x) (float64 s) = true -> x < s.
Proof.
  intros H. apply Qnot_le_lt. intros Hc.
  apply float64_mono in Hc. apply Qle_bool_iff in Hc.
  unfold Qltb in H. rewrite Hc in H. discriminate.
Qed.

Lemma round_half_even_comp (x y : Q) : x == y -> round_half_even x = round_half_even y.
Proof.
  intros H. unfold round_half_even. cbv zeta. rewrite (Qfloor_comp _ _ H).
  assert (Hc : Qcompare (x - inject_Z (Qfloor y)) (1 # 2) =
               Qcompare (y - inject_Z (Qfloor y)) (1 # 2)).
  { apply Qcompare_comp; [rewrite H|]; reflexivity. }
  rewrite Hc. reflexivity.
Qed.

Lemma exponent_unique (x : Q) (e : Z) :
  0 < x -> 2 ^ e <= x -> x < 2 ^ (e + 1) -> exponent x = e.
Proof.
  intros Hx H1 H2. destruct (exponent_spec Hx) as [H3 H4].
  assert (Ha : 2 ^ e < 2 ^ (exponent x + 1)) by lra.
  assert (Hb : 2 ^ exponent x < 2 ^ (e + 1)) by lra.
  apply Qpower_lt_compat_l_inv in Ha; [|reflexivity].
  apply Qpower_lt_compat_l_inv in Hb; [|reflexivity]. lia.
Qed.

Lemma exponent_comp (x y : Q) : 0 < x -> x == y -> exponent x = exponent y.
Proof.
  intros Hx H. destruct (exponent_spec Hx) as [H1 H2].
  symmetry. apply exponent_unique; lra.
Qed.

Lemma round_pos_comp (x y : Q) : 0 < x -> x == y -> round_pos x == round_pos y.
Proof.
  intros Hx H. unfold round_pos, ulp.
  rewrite (Qleb_comp _ _ (Qeq_refl (2 ^ 1024)) _ _ H).
  destruct (Qle_bool (2 ^ 1024) y); [reflexivity|].
  rewrite (exponent_comp Hx H).
  rewrite (@round_half_even_comp (x / 2 ^ (Z.max (exponent y) (-1022) - 52))
                     (y / 2 ^ (Z.max (exponent y) (-1022) - 52))).
  - reflexivity.
  - rewrite H. reflexivity.
Qed.

(** A value on the grid of its own binade is not moved. *)
Lemma round_pos_fixed (y : Q) (m : Z) :
  0 < y -> y < 2 ^ 1024 -> y == inject_Z m * ulp y -> round_pos y == y.
Proof.
  intros Hy Hlt Hm. unfold round_pos.
  destruct (Qle_bool (2 ^ 1024) y) eqn:Ho.
  { apply Qle_bool_iff in Ho. lra. }
  assert (Hu : 0 < ulp y) by apply pow2_pos.
  rewrite (@round_half_even_comp (y / ulp y) (inject_Z m)).
  - rewrite round_half_even_inject_Z. symmetry. exact Hm.
  - rewrite Hm at 1. field. lra.
Qed.

Lemma round_pos_idem (x : Q) :
  0 < x -> round_pos x == 0 \/ (0 < round_pos x /\ round_pos (round_pos x) == round_pos x).
Proof.
  intros Hx.
  destruct (Qle_bool (2 ^ 1024) x) eqn:Ho.
  { right. unfold round_pos at 1 3 4. rewrite Ho. split; [apply pow2_pos|].
    unfold round_pos. reflexivity. }
  assert (Hlt : x < 2 ^ 1024).
  { apply Qnot_le_lt. intros Hc. apply Qle_bool_iff in Hc. congruence. }
  destruct (exponent_spec Hx) as [Hx1 Hx2].
  assert (Hex : (exponent x < 1024)%Z).
  { apply Qpower_lt_compat_l_inv with 2; [lra | reflexivity]. }
  set (Eb := Z.max (exponent x) (-1022)).
  set (k := (Eb - 52)%Z).
  set (m := round_half_even (x / 2 ^ k)).
  assert (HR : round_pos x = inject_Z m * 2 ^ k).
  { unfold round_pos. rewrite Ho. reflexivity. }
  rewrite HR. set (R := inject_Z m * 2 ^ k) in *.
  assert (Hk : 0 < 2 ^ k) by apply pow2_pos.
  assert (Hup : R <= 2 ^ (Eb + 1)).
  { unfold R, m. rewrite (@pow2_split (Eb + 1) k) by lia.
    apply round_le; [exact Hk|].
    rewrite <- (@pow2_split (Eb + 1) k) by lia.
    apply Qle_trans with (2 ^ (exponent x + 1)); [lra|].
    apply Qpower_le_compat_l; [lia | discriminate]. }
  assert (H0 : 0 <= R).
  { unfold R, m. setoid_replace 0 with (inject_Z 0 * 2 ^ k) by ring.
    apply round_ge; [exact Hk|]. ring_simplify. lra. }
  destruct (Qlt_le_dec 0 R) as [Hpos | Hz]; [right | left; lra].
  split; [exact Hpos|].
  destruct (Qle_bool (2 ^ 1024) R) eqn:HoR.
  { unfold round_pos. rewrite HoR. apply Qle_bool_iff in HoR.
    assert (2 ^ (Eb + 1) <= 2 ^ 1024)
      by (apply Qpower_le_compat_l; [lia | discriminate]). lra. }
  assert (HltR : R < 2 ^ 1024).
  { apply Qnot_le_lt. intros Hc. apply Qle_bool_iff in Hc. congruence. }
  destruct (exponent_spec Hpos) as [HR1 HR2].
  destruct (Z_le_gt_dec (Z.max (exponent R) (-1022) - 52) k) as [Hle | Hgt].
  - apply (@round_pos_fixed R (m * 2 ^ (k - (Z.max (exponent R) (-1022) - 52)))%Z);
      try assumption.
    unfold ulp. rewrite inject_Z_mult, <- Qmult_assoc.
    rewrite <- (@pow2_split k (Z.max (exponent R) (-1022) - 52)) by lia.
    reflexivity.
  - assert (HE : exponent R = (Eb + 1)%Z).
    { assert (Hge : (Eb + 1 <= exponent R)%Z) by lia.
      assert (Hle : 2 ^ exponent R <= 2 ^ (Eb + 1)) by lra.
      apply Qpower_le_compat_l_inv in Hle; [lia | reflexivity]. }
    assert (Heq : R == 2 ^ (Eb + 1)).
    { apply Qle_antisym; [exact Hup|]. rewrite <- HE. exact HR1. }
    apply (@round_pos_fixed R (2 ^ 52)%Z); try assumption.
    unfold ulp. rewrite HE. rewrite Heq.
    replace (Z.max (Eb + 1) (-1022) - 52)%Z with (Eb + 1 - 52)%Z by lia.
    replace 52%Z with (Eb + 1 - (Eb + 1 - 52))%Z at 1 by lia.
    apply pow2_split. lia.
Qed.

Lemma float64_idem (x : Q) : float64 (float64 x) == float64 x.
Proof.
  unfold float64 at 2 3.
  destruct (Qcompare_spec x 0) as [Hx|Hx|Hx].
  - reflexivity.
  - assert (Hn : 0 < - x) by lra.
    destruct (round_pos_idem Hn) as [Hz | [Hpos Hid]].
    + unfold float64.
      assert (Hc : Qcompare (- round_pos (- x)) 0 = Eq) by (apply (proj1 (Qeq_alt _ _)); lra).
      rewrite Hc. lra.
    + unfold float64.
      assert (Hc : Qcompare (- round_pos (- x)) 0 = Lt) by (apply (proj1 (Qlt_alt _ _)); lra).
      rewrite Hc.
      rewrite (@round_pos_comp (- - round_pos (- x)) (round_pos (- x))).
      * rewrite Hid. reflexivity.
      * lra.
      * ring.
  - destruct (round_pos_idem Hx) as [Hz | [Hpos Hid]].
    + unfold float64.
      assert (Hc : Qcompare (round_pos x) 0 = Eq) by (apply (proj1 (Qeq_alt _ _)); lra).
      rewrite Hc. lra.
    + unfold float64.
      assert (Hc : Qcompare (round_pos x) 0 = Gt) by (apply (proj1 (Qgt_alt _ _)); lra).
      rewrite Hc. exact Hid.
Qed.

End Floats.

(** On a reading that is a float the guard of line 141 is the comparison
    the source writes. *)
Lemma before_float (t timeout : Q) :
  (float64 t == t)%Q -> Azure.before t timeout = Qltb t timeout.
Proof.
  intros H. unfold Azure.before, Qltb.
  rewrite (Qleb_comp _ _ (Qeq_refl timeout) _ _ H). reflexivity.
Qed.

(** The guard of line 141 can only hold while the reading is below the
    exact sum that line 140 rounds. *)
Lemma before_add (t a b : Q) :
  Azure.before t (float_add a b) = true -> (t < a + b)%Q.
Proof.
  unfold Azure.before, float_add. apply before_lt.
Qed.

(** ** Lower-casing *)

Lemma lower_ascii (E : env) (s : str) :
  is_ascii s = true -> lower E s = map ascii_lower s.
Proof.
  intros H. unfold lower. rewrite H. reflexivity.
Qed.

Lemma ascii_lower_not_upper (c : char) : is_upper (ascii_lower c) = false.
Proof.
  unfold ascii_lower. destruct (is_upper c) eqn:Hc; [|exact Hc].
  unfold is_upper in *. apply andb_prop in Hc as [H1 H2].
  apply N.leb_le in H1, H2. apply andb_false_intro2. apply N.leb_gt. lia.
Qed.

Lemma lower_case_map (s : str) : lower_case (map ascii_lower s) = true.
Proof.
  unfold lower_case. induction s as [|c s IH]; simpl; [reflexivity|].
  rewrite ascii_lower_not_upper, IH. reflexivity.
Qed.

Lemma is_ascii_drop_last (s : str) :
  is_ascii s = true -> is_ascii (drop_last s) = true.
Proof.
  unfold drop_last. induction s as [|c s IH]; simpl; intros H; [reflexivity|].
  apply andb_prop in H as [Hc Hs]. destruct s as [|d s']; [reflexivity|].
  change (is_ascii (c :: removelast (d :: s')) = true).
  simpl. simpl in IH. rewrite Hc. simpl. apply IH. exact Hs.
Qed.

Lemma length_drop_last {A : Type} (s : list A) :
  List.length (drop_last s) = (List.length s - 1)%nat.
Proof.
  unfold drop_last. induction s as [|c s IH]; [reflexivity|].
  destruct s as [|d s']; [reflexivity|].
  change (S (List.length (removelast (d :: s'))) = (S (S (List.length s')) - 1)%nat).
  rewrite IH. simpl. lia.
Qed.

(** On an ASCII [Display] lines 148-149 give the text without its last
    character, every capital replaced by its small letter. *)
Lemma trimmed_ascii (E : env) (display : str) :
  is_ascii display = true ->
  lower E (drop_last display) = map ascii_lower (drop_last display) /\
  lower_case (lower E (drop_last display)) = true /\
  List.length (lower E (drop_last display)) = (List.length display - 1)%nat.
Proof.
  intros H. rewrite (lower_ascii E _ (is_ascii_drop_last _ H)).
  split; [reflexivity|]. split; [apply lower_case_map|].
  rewrite length_map. apply length_drop_last.
Qed.

(** ** Traces *)

Lemma count_deletes_app (t u : list event) :
  count_deletes (t ++ u) = (count_deletes t + count_deletes u)%nat.
Proof.
  induction t as [|e t IH]; simpl; [reflexivity|].
  destruct e; simpl; rewrite IH; reflexivity.
Qed.

Lemma keeps_refl (w w' : world) : trace w' = trace w -> keeps w w'.
Proof.
  intros H. exists []. rewrite app_nil_r. split; [exact H | reflexivity].
Qed.

Lemma keeps_trans (w1 w2 w3 : world) : keeps w1 w2 -> keeps w2 w3 -> keeps w1 w3.
Proof.
  intros [t [Ht Hc]] [u [Hu Hd]]. exists (t ++ u). split.
  - rewrite Hu, Ht, app_assoc. reflexivity.
  - rewrite count_deletes_app, Hc, Hd. reflexivity.
Qed.


Lemma keeps_count (w w' : world) :
  keeps w w' -> count_deletes (trace w') = count_deletes (trace w).
Proof.
  intros [t [Ht Hc]]. rewrite Ht, count_deletes_app, Hc. lia.
Qed.

Lemma grows_refl (allowed : event -> bool) (w w' : world) :
  trace w' = trace w -> grows allowed w w'.
Proof.
  intros H. exists []. rewrite app_nil_r. split; [exact H | reflexivity].
Qed.

Lemma grows_trans (allowed : event -> bool) (w1 w2 w3 : world) :
  grows allowed w1 w2 -> grows allowed w2 w3 -> grows allowed w1 w3.
Proof.
  intros [t [Ht Hc]] [u [Hu Hd]]. exists (t ++ u). split.
  - rewrite Hu, Ht, app_assoc. reflexivity.
  - rewrite forallb_app, Hc, Hd. reflexivity.
Qed.

Lemma grows_step (allowed : event -> bool) (w w' : world) (e : event) :
  trace w' = trace w ++ [e] -> allowed e = true -> grows allowed w w'.
Proof.
  intros H He. exists [e]. split; [exact H|]. simpl. rewrite He. reflexivity.
Qed.

(** Unfolds the operations of the computation type. *)
Ltac unfold_comp :=
  unfold bind, ret, raise, lift, effect, log, sleep, now, uuid4, utcnow in *;
  simpl in *.

(** Splits an equation between two pairs of a world and a result. *)
Ltac pair_eq H := injection H as <- <-.

(** ** Amazon: the poll loop *)

Section AmazonFacts.

Variable E : env.
Variable job_name : str.

Lemma poll_ends (fuel : nat) :
  answers E ->
  forall status w w' r,
    Amazon.poll E job_name fuel status w = (w', r) ->
    r = Running \/ exists s, r = Returned s.
Proof.
  intros Hans. induction fuel as [|fuel IH]; intros status w w' r H; simpl in H.
  - unfold_comp. pair_eq H. left. reflexivity.
  - unfold_comp. destruct (Qltb 60 (time_time E (ticks w))).
    + unfold Amazon.query in H; simpl in H.
      destruct (Hans (polls w)) as [st [b [Hq Ht]]]. rewrite Hq, Ht in H.
      destruct b.
      * pair_eq H. right. eexists. reflexivity.
      * eapply IH. exact H.
    + pair_eq H. right. eexists. reflexivity.
Qed.

Lemma poll_pending (n : nat) :
  forall fuel status w,
    job_pending E w n ->
    exists w' status',
      Amazon.poll E job_name (n + fuel) status w =
      Amazon.poll E job_name fuel status' w' /\
      ticks w' = (ticks w + n)%nat /\ polls w' = (polls w + n)%nat /\
      keeps w w'.
Proof.
  induction n as [|n IH]; intros fuel status w Hp.
  - exists w, status. rewrite !Nat.add_0_r. repeat split.
    apply keeps_refl. reflexivity.
  - destruct (Hp 0%nat ltac:(lia)) as [Hc [st [Hq Ht]]].
    rewrite !Nat.add_0_r in *.
    set (w1 := mkWorld ((trace w ++ [GetJob job_name]) ++ [Sleep 1]) (uuids w)
                       (S (ticks w)) (stamps w) (S (polls w)) (sends w) (recvs w)).
    assert (Hstep : Amazon.poll E job_name (S n + fuel) status w =
                    Amazon.poll E job_name (n + fuel) (Some st) w1).
    { simpl. unfold_comp. rewrite Hc. unfold Amazon.query; simpl.
      rewrite Hq, Ht. reflexivity. }
    destruct (IH fuel (Some st) w1) as [w' [status' [He [Hk [Hl Hkeep]]]]].
    { intros i Hi. destruct (Hp (S i) ltac:(lia)) as [Hc' Hq'].
      unfold w1; simpl. rewrite <- !Nat.add_succ_comm in *. split; assumption. }
    exists w', status'. rewrite Hstep, He. repeat split.
    + rewrite Hk. unfold w1; simpl. lia.
    + rewrite Hl. unfold w1; simpl. lia.
    + eapply keeps_trans; [|exact Hkeep].
      exists ([GetJob job_name] ++ [Sleep 1]). unfold w1; simpl.
      rewrite <- app_assoc. split; reflexivity.
Qed.


(** The guard fails: the body is not entered. *)
Lemma poll_skipped (fuel : nat) (status : option pyval) (w : world) :
  Qltb 60 (time_time E (ticks w)) = false ->
  exists w', Amazon.poll E job_name (S fuel) status w = (w', Returned status) /\
             polls w' = polls w /\ trace w' = trace w.
Proof.
  intros Hc. eexists. simpl. unfold_comp. rewrite Hc. repeat split.
Qed.

(** With the clock beyond the bound and the job never finished, every
    budget of rounds is used up. *)
Lemma poll_goes_on :
  (forall k, Qltb 60 (time_time E k) = true) ->
  (forall k, exists st, get_transcription_job E k = inr st /\
                        Amazon.terminal st = Returned false) ->
  forall fuel status w,
    exists w', Amazon.poll E job_name fuel status w = (w', Running) /\
               polls w' = (polls w + fuel)%nat /\ keeps w w'.
Proof.
  intros Hc Hq fuel status w.
  destruct (@poll_pending fuel 0 status w) as [w' [status' [He [_ [Hl Hk]]]]].
  { intros i _. split; [apply Hc | apply Hq]. }
  rewrite Nat.add_0_r in He.
  exists w'. rewrite He. simpl. unfold_comp. repeat split; assumption.
Qed.

End AmazonFacts.

(** ** Amazon: get_text *)

Section AmazonCalls.

Variable C : Amazon.settings.
Variable E : env.

Lemma get_text_submitted (fuel : nat) (data : bytes) :
  put_object E = None ->
  start_transcription_job E = None ->
  Amazon.get_text C E fuel data world0 =
  after_poll C E (Amazon.poll E (uuid4_hex E 1) fuel None (submitted C E data)).
Proof.
  intros Hput Hstart. unfold Amazon.get_text, after_poll, submitted.
  unfold_comp. rewrite Hput, Hstart. simpl.
  destruct (Amazon.poll E (uuid4_hex E 1) fuel None _) as [w [status| | |]];
    try reflexivity.
  destruct (delete_object E); reflexivity.
Qed.

End AmazonCalls.

(** ** Amazon: the statements of the specification *)

Lemma wall_clock_late (k : nat) : Qltb 60 (wall_clock k) = true.
Proof.
  unfold Qltb. apply negb_true_iff. apply not_true_is_false. intros H.
  apply Qle_bool_iff in H. unfold wall_clock, epoch, Qle in H.
  cbn [Qnum Qden Qplus inject_Z] in H. lia.
Qed.

Lemma in_progress_pending :
  Amazon.terminal in_progress = Returned false.
Proof. reflexivity. Qed.

(** C1, as stated, fails: when the job submission raises, or a status
    query does, the error leaves [get_text] with the object uploaded and no
    delete issued. *)
Lemma submission_failure_keeps_object :
  let out := Amazon.get_text cfg batch_rejected 10 clip world0 in
  let out' := Amazon.get_text cfg batch_refused 10 clip world0 in
  snd out = Raised (Foreign "ClientError") /\
  In (PutObject (Amazon.S3_BUCKET cfg) (object_key batch_rejected) clip) (trace (fst out)) /\
  count_deletes (trace (fst out)) = 0%nat /\
  snd out' = Raised (Foreign "ClientError") /\
  polls (fst out') = 2%nat /\
  In (PutObject (Amazon.S3_BUCKET cfg) (object_key batch_refused) clip) (trace (fst out')) /\
  count_deletes (trace (fst out')) = 0%nat.
Proof.
  vm_compute. repeat split; left; reflexivity.
Qed.

(** C2 fails on the code: line 62 compares the clock itself, not the time
    spent, with 60.  On a wall clock the guard holds at every reading, and
    with a job that stays [IN_PROGRESS] the loop is still polling after any
    number of rounds, each one second after the other. *)
Theorem poll_outlasts_every_budget (fuel : nat) :
  exists w,
    Amazon.get_text cfg batch_stuck fuel clip world0 = (w, Running) /\
    polls w = fuel /\ count_deletes (trace w) = 0%nat.
Proof.
  rewrite (get_text_submitted cfg batch_stuck fuel clip eq_refl eq_refl).
  assert (Hlate : forall k, Qltb 60 (time_time batch_stuck k) = true).
  { intros k. apply wall_clock_late. }
  assert (Hjob : forall k, exists st,
             get_transcription_job batch_stuck k = inr st /\
             Amazon.terminal st = Returned false).
  { intros k. exists in_progress. split; reflexivity. }
  destruct (@poll_goes_on batch_stuck (hex 1) Hlate Hjob fuel None
              (submitted cfg batch_stuck clip))
    as [w [Hp [Hn Hk]]].
  exists w. change (uuid4_hex batch_stuck 1) with (hex 1). rewrite Hp. simpl.
  repeat split; [exact Hn|]. rewrite (keeps_count Hk). reflexivity.
Qed.

(** The other side of the same guard: while the clock reads no more than
    60 the body is never entered, no status query is made, and line 74
    finds [status] unbound. *)
Lemma poll_skipped_on_early_clock :
  let out := Amazon.get_text cfg batch_early 10 clip world0 in
  snd out = Raised UnboundLocalError /\ polls (fst out) = 0%nat /\
  count_deletes (trace (fst out)) = 1%nat.
Proof.
  vm_compute. repeat split.
Qed.




(** ** Azure: the session *)

Section AzureFacts.

Variable E : env.

Lemma get_text_opened (self : Azure.instance) (fuel : nat) (arg : str)
    (w w1 : world) :
  open_and_send E self w = (w1, Returned tt) ->
  Azure.get_text E self fuel arg w = close_after (listen E fuel w1).
Proof.
  unfold open_and_send, Azure.get_text, Azure.with_session, Azure.mp3_to_wav,
    listen, close_after.
  intros H. destruct (Azure.mp3_filename self) as [f|]; unfold_comp;
    [|discriminate].
  destruct (from_mp3_export E f _); [discriminate|]. simpl in *.
  destruct (connect E _); [discriminate|]. simpl in *.
  rewrite H. reflexivity.
Qed.


(** The blocks of [bytes_from_file] are the file, cut up. *)
Lemma chunks_concat (chunksize : nat) (data : bytes) :
  (0 < chunksize)%nat -> List.concat (Azure.chunks chunksize data) = data.
Proof.
  funelim (Azure.chunks chunksize data); intros Hpos.
  - lia.
  - reflexivity.
  - cbn [List.concat]. rewrite H by lia. apply firstn_skipn.
Qed.

(** Sending reads neither the clock nor the socket. *)
Lemma send_all_reads (req_id : str) (payloads : list bytes) :
  forall w w' r,
    Azure.send_all E req_id payloads w = (w', r) ->
    ticks w' = ticks w /\ recvs w' = recvs w.
Proof.
  induction payloads as [|p ps IH]; intros w w' r H; simpl in H.
  - unfold_comp. pair_eq H. split; reflexivity.
  - unfold Azure.build_message, Azure.websocket_send in H. unfold_comp.
    destruct (Azure.message req_id _ p) as [m| | |];
      try (pair_eq H; split; reflexivity).
    destruct (send E (sends w)); simpl in H.
    + pair_eq H. split; reflexivity.
    + apply IH in H. simpl in H. exact H.
Qed.

Lemma open_and_send_reads (self : Azure.instance) (w w' : world) (r : result unit) :
  open_and_send E self w = (w', r) ->
  ticks w' = ticks w /\ recvs w' = recvs w.
Proof.
  unfold open_and_send, Azure.mp3_to_wav, Azure.send_file, Azure.bytes_from_file.
  intros H. destruct (Azure.mp3_filename self) as [f|]; unfold_comp.
  2: { pair_eq H. split; reflexivity. }
  destruct (from_mp3_export E f _); simpl in H.
  { pair_eq H. split; reflexivity. }
  destruct (connect E _); simpl in H.
  { pair_eq H. split; reflexivity. }
  destruct (open_rb E _) as [e|data]; simpl in H.
  { pair_eq H. split; reflexivity. }
  match type of H with
  | context [Azure.send_all E ?q ?ps ?x] =>
      destruct (Azure.send_all E q ps x) as [w2 r2] eqn:Hs
  end.
  apply send_all_reads in Hs. simpl in Hs.
  destruct r2; pair_eq H; exact Hs.
Qed.

(** ** Azure: the receive loop *)

Lemma receive_idle (timeout : Q) (n : nat) :
  forall fuel w,
    rounds_idle E timeout w n ->
    exists w',
      Azure.receive E (n + fuel) timeout w = Azure.receive E fuel timeout w' /\
      ticks w' = (ticks w + n)%nat /\ recvs w' = (recvs w + n)%nat.
Proof.
  induction n as [|n IH]; intros fuel w Hr.
  - exists w. rewrite !Nat.add_0_r. repeat split.
  - destruct (Hr 0%nat ltac:(lia)) as [Hc [f [content [Hf [Hx [Hs He]]]]]].
    rewrite !Nat.add_0_r in *.
    set (w1 := mkWorld ((trace w ++ [Recv f]) ++ [Sleep 1]) (uuids w)
                       (S (ticks w)) (stamps w) (polls w) (sends w) (S (recvs w))).
    assert (Hstep : Azure.receive E (S n + fuel) timeout w =
                    Azure.receive E (n + fuel) timeout w1).
    { simpl. unfold Azure.websocket_recv. unfold_comp. rewrite Hc. simpl.
      rewrite Hf. simpl. rewrite Hx, Hs, He. reflexivity. }
    destruct (IH fuel w1) as [w' [Heq [Ht Hv]]].
    { intros i Hi. destruct (Hr (S i) ltac:(lia)) as [Hc' Hf'].
      unfold w1; simpl. rewrite <- !Nat.add_succ_comm in *. split; assumption. }
    exists w'. rewrite Hstep, Heq. repeat split.
    + rewrite Ht. unfold w1; simpl. lia.
    + rewrite Hv. unfold w1; simpl. lia.
Qed.

(** The guard fails: the loop and the function end. *)
Lemma receive_late (timeout : Q) (fuel : nat) (w : world) :
  Azure.before (time_time E (ticks w)) timeout = false ->
  exists w', Azure.receive E (S fuel) timeout w = (w', Returned PNone) /\
             recvs w' = recvs w.
Proof.
  intros Hc. eexists. simpl. unfold_comp. rewrite Hc. split; reflexivity.
Qed.

Lemma status_is_member (content : pyval) (v : str) (s : string) :
  getitem content (KStr "RecognitionStatus") = Returned (PStr v) ->
  Azure.status_is content s = Returned (str_eqb v (lit s)).
Proof.
  unfold Azure.status_is. intros H.
  destruct content; try discriminate. simpl in *.
  destruct (lookup (lit "RecognitionStatus") d); [|discriminate].
  simpl. injection H as ->. reflexivity.
Qed.

(** The round that reads a frame with status [Success]. *)
Lemma receive_success (timeout : Q) (fuel : nat) (w : world) (f : frame)
    (content nbest first : pyval) (display : str) :
  Azure.before (time_time E (ticks w)) timeout = true ->
  recv E (recvs w) = Arrives f ->
  Azure.extract_json_body E f = Returned content ->
  getitem content (KStr "RecognitionStatus") = Returned (PStr (lit "Success")) ->
  getitem content (KStr "NBest") = Returned nbest ->
  getitem nbest (KInt 0) = Returned first ->
  getitem first (KStr "Display") = Returned (PStr display) ->
  exists w',
    Azure.receive E (S fuel) timeout w =
    (w', Returned (PStr (lower E (drop_last display)))).
Proof.
  intros Hc Hf Hx Hs Hn H0 Hd. eexists. simpl.
  unfold Azure.websocket_recv. unfold_comp. rewrite Hc. simpl.
  rewrite Hf. simpl. rewrite Hx, (@status_is_member content _ "Success"%string Hs). simpl.
  rewrite Hn, H0, Hd. simpl. reflexivity.
Qed.

(** The round that reads a frame with status [EndOfDictation]. *)
Lemma receive_end (timeout : Q) (fuel : nat) (w : world) (f : frame)
    (content : pyval) :
  Azure.before (time_time E (ticks w)) timeout = true ->
  recv E (recvs w) = Arrives f ->
  Azure.extract_json_body E f = Returned content ->
  getitem content (KStr "RecognitionStatus") =
    Returned (PStr (lit "EndOfDictation")) ->
  exists w', Azure.receive E (S fuel) timeout w = (w', Returned PNone).
Proof.
  intros Hc Hf Hx Hs. eexists. simpl.
  unfold Azure.websocket_recv. unfold_comp. rewrite Hc. simpl.
  rewrite Hf. simpl. rewrite Hx, (@status_is_member content _ "Success"%string Hs),
    (@status_is_member content _ "EndOfDictation"%string Hs). simpl.
  reflexivity.
Qed.

End AzureFacts.

(** ** Azure: the statements of the specification *)

Lemma rounds_idle_readings (E : env) (timeout : Q) (w w' : world) (n : nat) :
  ticks w' = ticks w -> recvs w' = recvs w ->
  rounds_idle E timeout w n -> rounds_idle E timeout w' n.
Proof.
  unfold rounds_idle. intros -> ->. trivial.
Qed.

(** After [n] idle rounds the call stands at the guard of round [n]. *)
Lemma get_text_listens (E : env) (self : Azure.instance) (n fuel : nat)
    (arg : str) (w1 : world) :
  open_and_send E self world0 = (w1, Returned tt) ->
  rounds_idle E (deadline E) listening n ->
  exists w',
    Azure.get_text E self (n + fuel) arg world0 =
    close_after (Azure.receive E fuel (deadline E) w') /\
    ticks w' = S n /\ recvs w' = n.
Proof.
  intros Hopen Hidle.
  rewrite (get_text_opened E self (n + fuel) arg world0 Hopen).
  destruct (open_and_send_reads E self world0 Hopen) as [Ht Hv].
  simpl in Ht, Hv. unfold listen. unfold_comp. rewrite Ht.
  match goal with
  | |- context [Azure.receive E (n + fuel) _ ?x] =>
      destruct (@receive_idle E (deadline E) n fuel x) as [w' [He [Ht' Hv']]]
  end.
  - eapply rounds_idle_readings; [| |exact Hidle]; simpl; congruence.
  - exists w'. unfold deadline in *. rewrite He. simpl in Ht', Hv'.
    repeat split; [exact Ht' | rewrite Hv', Hv; reflexivity].
Qed.

Lemma close_after_returned {A : Type} (w : world) (a : A) :
  exists w', close_after (w, Returned a) = (w', Returned a) /\
             recvs w' = recvs w /\ exists t, trace w' = t ++ [Close].
Proof.
  eexists. split; [reflexivity|]. split; [reflexivity|].
  eexists. reflexivity.
Qed.

(** C3, as stated, fails: a socket that delivers hypotheses only, one per
    second, makes [get_text] return [None] once the clock has passed the
    bound; no exception is raised. *)
Lemma deadline_without_final_frame_returns :
  let out := Azure.get_text stream_open speaker 20 (lit "clip.mp3") world0 in
  snd out = Returned PNone /\
  snd out <> Raised TimeoutError /\
  recvs (fst out) = 14%nat.
Proof.
  vm_compute. repeat split. discriminate.
Qed.

(** C3, amended: when every frame read before the bound is reached parses
    and is not final, and a reading of the clock at the loop guard is then
    not below the bound - the float [time.time() + 15] of line 140 -
    [get_text] closes the session and returns [None], having read the
    frames of the rounds before and no other. *)
Theorem deadline_passed_returns_none
    (E : env) (self : Azure.instance) (n fuel : nat) (arg : str) (w1 : world) :
  open_and_send E self world0 = (w1, Returned tt) ->
  rounds_idle E (deadline E) listening n ->
  Azure.before (time_time E (S n)) (deadline E) = false ->
  (n < fuel)%nat ->
  exists w,
    Azure.get_text E self fuel arg world0 = (w, Returned PNone) /\
    recvs w = n /\
    exists t, trace w = t ++ [Close].
Proof.
  intros Hopen Hidle Hlate Hfuel.
  replace fuel with (n + S (fuel - S n))%nat by lia.
  destruct (get_text_listens self (S (fuel - S n)) arg Hopen Hidle)
    as [w' [He [Ht Hv]]].
  destruct (@receive_late E (deadline E) (fuel - S n) w') as [w2 [Hr Hv2]].
  { rewrite Ht. exact Hlate. }
  rewrite He, Hr.
  destruct (close_after_returned w2 PNone) as [w3 [Hc [Hv3 Htr]]].
  exists w3. rewrite Hc. repeat split; [congruence | exact Htr].
Qed.

(** On the wall clock of the examples the first fourteen rounds start
    ahead of the bound. *)
Lemma wall_clock_early (i : nat) :
  (i < 14)%nat ->
  Azure.before (wall_clock (S i)) (float_add (wall_clock 0) 15) = true.
Proof.
  intros Hi.
  do 14 (destruct i as [|i]; [vm_compute; reflexivity|]). lia.
Qed.

Lemma hypothesis_frame_idle :
  exists content,
    Azure.extract_json_body stream_open hypothesis_frame = Returned content /\
    idle content.
Proof.
  eexists. split; [vm_compute; reflexivity|]. split; vm_compute; reflexivity.
Qed.

(** On the clock that reads 0.1 and then 15.1 the first guard finds the
    bound reached, although the reading is below the exact sum. *)
Lemma deadline_passed_returns_none_witness :
  (exists w,
     Azure.get_text stream_open speaker 20 (lit "clip.mp3") world0 =
     (w, Returned PNone) /\
     recvs w = 14%nat /\
     exists t, trace w = t ++ [Close]) /\
  (time_time stream_tenths 1 < time_time stream_tenths 0 + 15)%Q /\
  (exists w,
     Azure.get_text stream_tenths speaker 20 (lit "clip.mp3") world0 =
     (w, Returned PNone) /\
     recvs w = 0%nat /\
     exists t, trace w = t ++ [Close]).
Proof.
  split; [|split].
  - apply (@deadline_passed_returns_none stream_open speaker 14 20
             (lit "clip.mp3") (fst (open_and_send stream_open speaker world0))).
    + vm_compute. reflexivity.
    + intros i Hi. split.
      * apply (wall_clock_early Hi).
      * destruct hypothesis_frame_idle as [content [Hx Hidle]].
        exists hypothesis_frame, content.
        split; [reflexivity | split; assumption].
    + vm_compute. reflexivity.
    + lia.
  - vm_compute. reflexivity.
  - apply (@deadline_passed_returns_none stream_tenths speaker 0 20
             (lit "clip.mp3") (fst (open_and_send stream_tenths speaker world0))).
    + vm_compute. reflexivity.
    + intros i Hi. lia.
    + vm_compute. reflexivity.
    + lia.
Defined.

(** A socket that stays silent: line 142 waits for ever, the bound of
    line 141 is not looked at again. *)
Lemma silent_socket_blocks :
  let out := Azure.get_text stream_silent speaker 20 (lit "clip.mp3") world0 in
  snd out = Blocked /\ recvs (fst out) = 1%nat /\ ticks (fst out) = 2%nat.
Proof.
  vm_compute. repeat split.
Qed.

(** The call returns what the round that reads frame [n] returns. *)
Lemma get_text_final_round (E : env) (self : Azure.instance) (n fuel : nat)
    (arg : str) (w1 : world) (v : pyval) :
  open_and_send E self world0 = (w1, Returned tt) ->
  rounds_idle E (deadline E) listening n ->
  (n < fuel)%nat ->
  (forall w, ticks w = S n -> recvs w = n ->
     exists w', Azure.receive E (S (fuel - S n)) (deadline E) w = (w', Returned v)) ->
  exists w,
    Azure.get_text E self fuel arg world0 = (w, Returned v) /\
    exists t, trace w = t ++ [Close].
Proof.
  intros Hopen Hidle Hfuel Hround.
  destruct (get_text_listens self (S (fuel - S n)) arg Hopen Hidle)
    as [w' [He [Ht Hv]]].
  destruct (Hround w' Ht Hv) as [w2 Hr].
  destruct (close_after_returned w2 v) as [w3 [Hc [_ Htr]]].
  exists w3. split; [|exact Htr].
  replace fuel with (n + S (fuel - S n))%nat by lia.
  rewrite He, Hr. exact Hc.
Qed.

(** C5: a frame read ahead of the bound, behind [n] frames that were not
    final, whose body has [RecognitionStatus] equal to [Success] and
    [NBest[0].Display] equal to [Seven.], makes [get_text] return [seven];
    one whose body has [RecognitionStatus] equal to [EndOfDictation] makes
    it return [None]. *)
Theorem final_frames_classified
    (E : env) (self : Azure.instance) (n fuel : nat) (arg : str) (w1 : world)
    (f : frame) (content : pyval) :
  open_and_send E self world0 = (w1, Returned tt) ->
  rounds_idle E (deadline E) listening n ->
  Azure.before (time_time E (S n)) (deadline E) = true ->
  recv E n = Arrives f ->
  Azure.extract_json_body E f = Returned content ->
  (n < fuel)%nat ->
  (forall nbest first,
     getitem content (KStr "RecognitionStatus") = Returned (PStr (lit "Success")) ->
     getitem content (KStr "NBest") = Returned nbest ->
     getitem nbest (KInt 0) = Returned first ->
     getitem first (KStr "Display") = Returned (PStr (lit "Seven.")) ->
     exists w,
       Azure.get_text E self fuel arg world0 = (w, Returned (PStr (lit "seven"))) /\
       exists t, trace w = t ++ [Close]) /\
  (getitem content (KStr "RecognitionStatus") =
     Returned (PStr (lit "EndOfDictation")) ->
   exists w,
     Azure.get_text E self fuel arg world0 = (w, Returned PNone) /\
     exists t, trace w = t ++ [Close]).
Proof.
  intros Hopen Hidle Hclock Hrecv Hbody Hfuel. split.
  - intros nbest first Hs Hn H0 Hd.
    apply (get_text_final_round self arg Hopen Hidle Hfuel).
    intros w Ht Hv.
    apply (@receive_success E (deadline E) (fuel - S n) w f content nbest first
             (lit "Seven.")); try assumption.
    + rewrite Ht. exact Hclock.
    + rewrite Hv. exact Hrecv.
  - intros Hs.
    apply (get_text_final_round self arg Hopen Hidle Hfuel).
    intros w Ht Hv.
    apply (@receive_end E (deadline E) (fuel - S n) w f content); try assumption.
    + rewrite Ht. exact Hclock.
    + rewrite Hv. exact Hrecv.
Qed.

Lemma stream_rounds_idle (final : frame) :
  rounds_idle (stream final) (deadline (stream final)) listening 2.
Proof.
  intros i Hi. split.
  - apply wall_clock_early. lia.
  - destruct hypothesis_frame_idle as [content [Hx Hidle]].
    exists hypothesis_frame, content.
    split; [|split; assumption].
    destruct i as [|[|i]]; [reflexivity | reflexivity | lia].
Qed.

Lemma final_frames_classified_witness :
  (exists w,
     Azure.get_text (stream (phrase "Seven.")) speaker 10 (lit "clip.mp3") world0 =
     (w, Returned (PStr (lit "seven"))) /\
     exists t, trace w = t ++ [Close]) /\
  (exists w,
     Azure.get_text (stream end_frame) speaker 10 (lit "clip.mp3") world0 =
     (w, Returned PNone) /\
     exists t, trace w = t ++ [Close]).
Proof.
  split.
  - refine (proj1 (@final_frames_classified (stream (phrase "Seven.")) speaker 2 10
                     (lit "clip.mp3")
                     (fst (open_and_send (stream (phrase "Seven.")) speaker world0))
                     (phrase "Seven.") _ _ _ _ _ _ _) _ _ _ _ _ _).
    + vm_compute. reflexivity.
    + apply stream_rounds_idle.
    + vm_compute. reflexivity.
    + reflexivity.
    + vm_compute. reflexivity.
    + lia.
    + vm_compute. reflexivity.
    + vm_compute. reflexivity.
    + vm_compute. reflexivity.
    + vm_compute. reflexivity.
  - refine (proj2 (@final_frames_classified (stream end_frame) speaker 2 10
                     (lit "clip.mp3")
                     (fst (open_and_send (stream end_frame) speaker world0))
                     end_frame _ _ _ _ _ _ _) _).
    + vm_compute. reflexivity.
    + apply stream_rounds_idle.
    + vm_compute. reflexivity.
    + reflexivity.
    + vm_compute. reflexivity.
    + lia.
    + vm_compute. reflexivity.
Defined.

(** C10: on a frame with status [Success], read ahead of the bound,
    [get_text] returns [NBest[0].Display] without its last character and
    lower-cased, whatever that character is.  For an ASCII [Display] that
    is the text with every capital replaced by its small letter, one
    character shorter: [seven] and [SEVEN] come back as [seve], [Seven.] as
    [seven], and the empty string as the empty string. *)
Theorem success_drops_last_character
    (E : env) (self : Azure.instance) (n fuel : nat) (arg : str) (w1 : world)
    (f : frame) (content nbest first : pyval) (display : str) :
  open_and_send E self world0 = (w1, Returned tt) ->
  rounds_idle E (deadline E) listening n ->
  Azure.before (time_time E (S n)) (deadline E) = true ->
  recv E n = Arrives f ->
  Azure.extract_json_body E f = Returned content ->
  getitem content (KStr "RecognitionStatus") = Returned (PStr (lit "Success")) ->
  getitem content (KStr "NBest") = Returned nbest ->
  getitem nbest (KInt 0) = Returned first ->
  getitem first (KStr "Display") = Returned (PStr display) ->
  (n < fuel)%nat ->
  (exists w,
     Azure.get_text E self fuel arg world0 =
     (w, Returned (PStr (lower E (drop_last display))))) /\
  (is_ascii display = true ->
   lower E (drop_last display) = map ascii_lower (drop_last display) /\
   lower_case (lower E (drop_last display)) = true /\
   List.length (lower E (drop_last display)) = (List.length display - 1)%nat) /\
  lower E (drop_last (lit "seven")) = lit "seve" /\
  lower E (drop_last (lit "SEVEN")) = lit "seve" /\
  lower E (drop_last (lit "Seven.")) = lit "seven" /\
  lower E (drop_last (lit "")) = lit "".
Proof.
  intros Hopen Hidle Hclock Hrecv Hbody Hs Hn H0 Hd Hfuel.
  split; [|split; [apply trimmed_ascii | repeat split]].
  destruct (@get_text_final_round E self n fuel arg w1
              (PStr (lower E (drop_last display))) Hopen Hidle Hfuel)
    as [w [Hw _]].
  - intros w Ht Hv.
    apply (@receive_success E (deadline E) (fuel - S n) w f content nbest first
             display); try assumption.
    + rewrite Ht. exact Hclock.
    + rewrite Hv. exact Hrecv.
  - exists w. exact Hw.
Qed.

Lemma success_drops_last_character_witness :
  (exists w,
     Azure.get_text (stream (phrase "seven")) speaker 10 (lit "clip.mp3") world0 =
     (w, Returned (PStr (lit "seve")))) /\
  (exists w,
     Azure.get_text (stream (phrase "")) speaker 10 (lit "clip.mp3") world0 =
     (w, Returned (PStr (lit "")))) /\
  (exists w,
     Azure.get_text (stream (phrase "SEVEN!")) speaker 10 (lit "clip.mp3") world0 =
     (w, Returned (PStr (lit "seven")))).
Proof.
  split; [|split].
  - refine (proj1 (@success_drops_last_character (stream (phrase "seven")) speaker
                     2 10 (lit "clip.mp3")
                     (fst (open_and_send (stream (phrase "seven")) speaker world0))
                     (phrase "seven") _ _ _ (lit "seven")
                     _ _ _ _ _ _ _ _ _ _)).
    + vm_compute. reflexivity.
    + apply stream_rounds_idle.
    + vm_compute. reflexivity.
    + reflexivity.
    + vm_compute. reflexivity.
    + vm_compute. reflexivity.
    + vm_compute. reflexivity.
    + vm_compute. reflexivity.
    + vm_compute. reflexivity.
    + lia.
  - refine (proj1 (@success_drops_last_character (stream (phrase "")) speaker
                     2 10 (lit "clip.mp3")
                     (fst (open_and_send (stream (phrase "")) speaker world0))
                     (phrase "") _ _ _ (lit "")
                     _ _ _ _ _ _ _ _ _ _)).
    + vm_compute. reflexivity.
    + apply stream_rounds_idle.
    + vm_compute. reflexivity.
    + reflexivity.
    + vm_compute. reflexivity.
    + vm_compute. reflexivity.
    + vm_compute. reflexivity.
    + vm_compute. reflexivity.
    + vm_compute. reflexivity.
    + lia.
  - refine (proj1 (@success_drops_last_character (stream (phrase "SEVEN!")) speaker
                     2 10 (lit "clip.mp3")
                     (fst (open_and_send (stream (phrase "SEVEN!")) speaker world0))
                     (phrase "SEVEN!") _ _ _ (lit "SEVEN!")
                     _ _ _ _ _ _ _ _ _ _)).
    + vm_compute. reflexivity.
    + apply stream_rounds_idle.
    + vm_compute. reflexivity.
    + reflexivity.
    + vm_compute. reflexivity.
    + vm_compute. reflexivity.
    + vm_compute. reflexivity.
    + vm_compute. reflexivity.
    + vm_compute. reflexivity.
    + lia.
Defined.

Lemma send_all_online (E : env) (req_id : str) (payloads : list bytes) :
  forall w w' r,
    Azure.send_all E req_id payloads w = (w', r) -> grows online_event w w'.
Proof.
  induction payloads as [|p ps IH]; intros w w' r H; simpl in H.
  - unfold_comp. pair_eq H. apply grows_refl. reflexivity.
  - unfold Azure.build_message, Azure.websocket_send in H. unfold_comp.
    destruct (Azure.message req_id _ p) as [m| | |];
      try (pair_eq H; apply grows_refl; reflexivity).
    destruct (send E (sends w)); simpl in H.
    + pair_eq H. apply grows_refl. reflexivity.
    + apply IH in H. eapply grows_trans; [|exact H].
      eapply grows_step; simpl; reflexivity.
Qed.

Lemma receive_online (E : env) (timeout : Q) (fuel : nat) :
  forall w w' r,
    Azure.receive E fuel timeout w = (w', r) -> grows online_event w w'.
Proof.
  induction fuel as [|fuel IH]; intros w w' r H; simpl in H.
  - unfold_comp. pair_eq H. apply grows_refl. reflexivity.
  - unfold Azure.websocket_recv in H. unfold_comp.
    destruct (Azure.before (time_time E (ticks w)) timeout).
    2: { pair_eq H. apply grows_refl. reflexivity. }
    simpl in H. destruct (recv E (recvs w)) as [f|e|]; simpl in H;
      try (pair_eq H; apply grows_refl; reflexivity).
    assert (Hread : forall q : result pyval,
               (mkWorld (trace w ++ [Recv f]) (uuids w) (S (ticks w)) (stamps w)
                        (polls w) (sends w) (S (recvs w)), q) = (w', r) ->
               grows online_event w w').
    { intros q Hq. pair_eq Hq. eapply grows_step; simpl; reflexivity. }
    destruct (Azure.extract_json_body E f) as [content| | |]; eauto.
    destruct (Azure.status_is content "Success") as [[|]| | |]; eauto.
    + destruct (getitem content (KStr "NBest")) as [nbest| | |]; eauto.
      destruct (getitem nbest (KInt 0)) as [first| | |]; eauto.
      destruct (getitem first (KStr "Display")) as [answer| | |]; eauto.
    + destruct (Azure.status_is content "EndOfDictation") as [[|]| | |]; eauto.
      apply IH in H. eapply grows_trans; [|exact H].
      exists [Recv f; Sleep 1]. simpl. rewrite <- app_assoc. split; reflexivity.
Qed.

Lemma session_body_online (E : env) (wav : str) (fuel : nat) (w w' : world)
    (r : result pyval) :
  (Azure.send_file E wav ;;;
   t0 <- now E ;;
   Azure.receive E fuel (float_add t0 15)) w = (w', r) ->
  grows online_event w w'.
Proof.
  unfold Azure.send_file, Azure.bytes_from_file. unfold_comp. intros H.
  destruct (open_rb E wav) as [e|data]; simpl in H.
  { pair_eq H. apply grows_refl. reflexivity. }
  match type of H with
  | context [Azure.send_all E ?q ?ps ?x] =>
      destruct (Azure.send_all E q ps x) as [w2 r2] eqn:Hs
  end.
  apply send_all_online in Hs.
  assert (Hsent : grows online_event w w2).
  { eapply grows_trans; [|exact Hs]. apply grows_refl. reflexivity. }
  destruct r2 as [[]| | |]; try (pair_eq H; exact Hsent).
  apply receive_online in H. eapply grows_trans; [exact Hsent|].
  eapply grows_trans; [|exact H]. apply grows_refl. reflexivity.
Qed.

(** C9: the file that [get_text] has transcoded is the one the attribute
    [mp3_filename] of the instance names, whatever argument is passed.  On
    an instance without the attribute every call raises [AttributeError] at
    line 131, the world untouched: nothing transcoded, no session opened.
    On an instance with the attribute [f], a failing export of [f] is the
    error of the call, and after a successful one the trace goes on with
    the transcoding of [f], followed by events of the session only. *)
Theorem get_text_reads_attribute
    (E : env) (self : Azure.instance) (fuel : nat) (arg : str) (w : world) :
  (Azure.mp3_filename self = None ->
   Azure.get_text E self fuel arg w = (w, Raised AttributeError)) /\
  (forall f : str,
     Azure.mp3_filename self = Some f ->
     (forall e : exn,
        from_mp3_export E f (replace f (lit ".mp3") (lit ".wav")) = Some e ->
        Azure.get_text E self fuel arg w = (w, Raised e)) /\
     (from_mp3_export E f (replace f (lit ".mp3") (lit ".wav")) = None ->
      exists w' r u,
        Azure.get_text E self fuel arg w = (w', r) /\
        trace w' =
          trace w ++ Transcode f (replace f (lit ".mp3") (lit ".wav")) :: u /\
        forallb online_event u = true)).
Proof.
  split.
  - intros Hnone. unfold Azure.get_text. rewrite Hnone. reflexivity.
  - intros f Hsome. unfold Azure.get_text, Azure.with_session, Azure.mp3_to_wav.
    rewrite Hsome. split.
    + intros e Hexp. unfold bind at 1. unfold ret at 1. cbv beta iota.
      unfold bind at 1. unfold bind at 1. unfold effect at 1.
      rewrite Hexp. reflexivity.
    + intros Hexp. unfold bind at 1. unfold ret at 1. cbv beta iota.
      unfold bind at 1. unfold bind at 1. unfold effect at 1.
      rewrite Hexp. unfold log at 1. cbv beta iota. unfold ret at 1.
      cbv beta iota.
      unfold bind at 1. unfold uuid4 at 1. cbv beta iota.
      unfold bind at 1. unfold effect at 1.
      destruct (connect E _).
      { unfold raise. cbv beta iota. eexists. eexists. exists [].
        split; [reflexivity|]. split; reflexivity. }
      unfold log at 1. cbv beta iota.
      cbn [trace uuids ticks stamps polls sends recvs].
      match goal with
      | |- context [(let (w', r) := ?body ?x in _)] =>
          destruct (body x) as [w3 r3] eqn:Hbody
      end.
      apply session_body_online in Hbody. destruct Hbody as [t [Ht Hall]].
      cbn [trace] in Ht.
      destruct r3 as [v|e| |].
      * eexists. eexists. exists (Connect (Azure.url_of self (uuid4_hex E (uuids w))) :: t ++ [Close]).
        split; [reflexivity|]. split.
        -- cbn [log fst trace]. rewrite Ht, <- !app_assoc. reflexivity.
        -- cbn [forallb online_event]. rewrite forallb_app, Hall. reflexivity.
      * eexists. eexists. exists (Connect (Azure.url_of self (uuid4_hex E (uuids w))) :: t ++ [Close]).
        split; [reflexivity|]. split.
        -- cbn [log fst trace]. rewrite Ht, <- !app_assoc. reflexivity.
        -- cbn [forallb online_event]. rewrite forallb_app, Hall. reflexivity.
      * eexists. eexists. exists (Connect (Azure.url_of self (uuid4_hex E (uuids w))) :: t).
        split; [reflexivity|]. split.
        -- rewrite Ht, <- !app_assoc. reflexivity.
        -- cbn [forallb online_event]. exact Hall.
      * eexists. eexists. exists (Connect (Azure.url_of self (uuid4_hex E (uuids w))) :: t).
        split; [reflexivity|]. split.
        -- rewrite Ht, <- !app_assoc. reflexivity.
        -- cbn [forallb online_event]. exact Hall.
Qed.

Lemma get_text_reads_attribute_witness :
  Azure.get_text (stream (phrase "Seven.")) fresh 10 (lit "other.mp3") world0 =
    (world0, Raised AttributeError) /\
  exists w' r u,
    Azure.get_text (stream (phrase "Seven.")) speaker 10 (lit "other.mp3") world0 =
      (w', r) /\
    trace w' =
      trace world0 ++ Transcode (lit "audio/clip.mp3") (lit "audio/clip.wav") :: u /\
    forallb online_event u = true.
Proof.
  split.
  - apply (proj1 (get_text_reads_attribute (stream (phrase "Seven.")) fresh 10
                    (lit "other.mp3") world0)).
    reflexivity.
  - apply (proj2 (proj2 (get_text_reads_attribute (stream (phrase "Seven.")) speaker 10
                           (lit "other.mp3") world0)
                    (lit "audio/clip.mp3") eq_refl)).
    reflexivity.
Defined.

(** ** Azure: the separator of header and body *)

Lemma search_separator_sound (s : str) :
  forall ls pos e,
    Azure.search_separator ls pos s = Some e ->
    exists pre post,
      s = pre ++ CR :: LF :: post /\
      (pre = [] -> ls = true) /\
      (pre <> [] -> exists p, pre = p ++ [LF]).
Proof.
  induction s as [|c rest IH]; intros ls pos e H; simpl in H; [discriminate|].
  destruct (ls && (c =? CR) &&
            match rest with d :: _ => d =? LF | [] => false end) eqn:Hhit.
  - apply andb_prop in Hhit as [Hhit Hlf]. apply andb_prop in Hhit as [Hls Hcr].
    destruct rest as [|d post]; [discriminate|].
    apply N.eqb_eq in Hcr, Hlf. subst c d.
    exists [], post. repeat split; [trivial | congruence].
  - destruct (IH _ _ _ H) as [pre [post [Hs [Hnil Hcons]]]].
    exists (c :: pre), post. split; [rewrite Hs; reflexivity|].
    split; [discriminate|]. intros _.
    destruct pre as [|x pre'].
    + specialize (Hnil eq_refl). apply N.eqb_eq in Hnil. subst c.
      exists []. reflexivity.
    + destruct Hcons as [p Hp]; [discriminate|].
      exists (c :: p). rewrite Hp. reflexivity.
Qed.

Lemma search_separator_complete (pre post : str) :
  forall ls pos,
    (pre = [] -> ls = true) ->
    (pre <> [] -> exists p, pre = p ++ [LF]) ->
    Azure.search_separator ls pos (pre ++ CR :: LF :: post) <> None.
Proof.
  induction pre as [|c pre' IH]; intros ls pos Hnil Hcons; simpl.
  - rewrite (Hnil eq_refl). simpl. discriminate.
  - destruct (ls && (c =? CR) &&
              match pre' ++ CR :: LF :: post with d :: _ => d =? LF | [] => false end);
      [discriminate|].
    destruct Hcons as [p Hp]; [discriminate|].
    apply IH.
    + intros ->. destruct p as [|y p'].
      * injection Hp as ->. reflexivity.
      * injection Hp as _ Hp. destruct p'; discriminate.
    + intros Hne. destruct p as [|y p'].
      * injection Hp as _ Hp. congruence.
      * injection Hp as _ Hp. exists p'. exact Hp.
Qed.

(** The search of line 106 fails exactly on the texts without an empty
    line. *)
Lemma search_separator_none (s : str) :
  Azure.search_separator true 0 s = None <-> ~ separated s.
Proof.
  split.
  - intros Hnone [pre [post [Hs Hline]]]. subst s.
    revert Hnone. apply search_separator_complete.
    + reflexivity.
    + intros Hne. destruct Hline as [Hnil | Hp]; [contradiction | exact Hp].
  - intros Hsep. destruct (Azure.search_separator true 0 s) as [e|] eqn:Hfound;
      [|reflexivity].
    exfalso. apply Hsep.
    destruct (search_separator_sound _ _ _ Hfound) as [pre [post [Hs [_ Hcons]]]].
    exists pre, post. split; [exact Hs|].
    destruct pre as [|x pre']; [left; reflexivity|].
    right. apply Hcons. discriminate.
Qed.

(** C6, as stated, fails: on a frame without the empty line
    [extract_json_body] raises [AttributeError], from [m.end()] on the
    [None] of a failed search, and [get_text] passes it on. *)
Lemma frame_without_separator_raises_attribute_error :
  ~ separated bare_text /\
  Azure.extract_json_body (stream bare_frame) bare_frame = Raised AttributeError /\
  Azure.extract_json_body (stream bare_frame) bare_frame <> Raised ProtocolError /\
  snd (Azure.get_text (stream bare_frame) speaker 10 (lit "clip.mp3") world0) =
    Raised AttributeError.
Proof.
  split; [apply search_separator_none; vm_compute; reflexivity|].
  vm_compute. repeat split. discriminate.
Qed.

(** C6, amended: for a received text frame, [extract_json_body] raises
    [AttributeError] exactly when the frame has no empty line between
    header and body; in that case it neither returns a value nor raises
    another exception.  When the loop of [get_text] reads such a frame -
    ahead of the bound, behind [n] frames that parse and are not final -
    the call ends with that [AttributeError], after that frame and with the
    session closed. *)
Theorem missing_separator_raises_attribute_error (E : env) (s : str) :
  (Azure.extract_json_body E (Text s) = Raised AttributeError <-> ~ separated s) /\
  (~ separated s ->
   forall (self : Azure.instance) (n fuel : nat) (arg : str) (w1 : world),
     open_and_send E self world0 = (w1, Returned tt) ->
     rounds_idle E (deadline E) listening n ->
     Azure.before (time_time E (S n)) (deadline E) = true ->
     recv E n = Arrives (Text s) ->
     (n < fuel)%nat ->
     exists w t,
       Azure.get_text E self fuel arg world0 = (w, Raised AttributeError) /\
       recvs w = S n /\
       trace w = t ++ [Recv (Text s); Close]).
Proof.
  assert (Hiff : Azure.extract_json_body E (Text s) = Raised AttributeError <->
                 ~ separated s).
  { rewrite <- search_separator_none. unfold Azure.extract_json_body.
    destruct (Azure.search_separator true 0 s) as [e|].
    - destruct (json_loads E (skipn e s)); split; discriminate.
    - split; reflexivity. }
  split; [exact Hiff|].
  intros Hsep self n fuel arg w1 Hopen Hidle Hclock Hrecv Hfuel.
  apply Hiff in Hsep.
  destruct (get_text_listens self (S (fuel - S n)) arg Hopen Hidle)
    as [w' [He [Ht Hv]]].
  replace fuel with (n + S (fuel - S n))%nat by lia. rewrite He.
  simpl. unfold Azure.websocket_recv. unfold_comp.
  rewrite Ht, Hclock, Hv. simpl. rewrite Hrecv. simpl. rewrite Hsep. simpl.
  eexists. exists (trace w'). split; [reflexivity|]. simpl.
  split; [congruence|]. rewrite <- app_assoc. reflexivity.
Qed.

Lemma missing_separator_raises_attribute_error_witness :
  Azure.extract_json_body (stream bare_frame) (Text bare_text) =
    Raised AttributeError /\
  exists w t,
    Azure.get_text (stream bare_frame) speaker 10 (lit "clip.mp3") world0 =
      (w, Raised AttributeError) /\
    recvs w = 3%nat /\
    trace w = t ++ [Recv (Text bare_text); Close].
Proof.
  assert (Hbare : ~ separated bare_text).
  { apply search_separator_none. vm_compute. reflexivity. }
  split.
  - apply (proj2 (proj1 (missing_separator_raises_attribute_error
                           (stream bare_frame) bare_text))).
    exact Hbare.
  - apply (proj2 (missing_separator_raises_attribute_error
                    (stream bare_frame) bare_text) Hbare speaker 2%nat 10%nat
             (lit "clip.mp3")
             (fst (open_and_send (stream bare_frame) speaker world0))).
    + vm_compute. reflexivity.
    + apply stream_rounds_idle.
    + vm_compute. reflexivity.
    + reflexivity.
    + lia.
Defined.

(** ** Azure: framing *)

Lemma to_N_byte_of (n : N) : n < 256 -> Byte.to_N (byte_of n) = n.
Proof.
  intros Hn. unfold byte_of. rewrite (N.mod_small n 256 Hn).
  destruct (Byte.of_N n) as [b|] eqn:Hb.
  - apply Byte.to_of_N. exact Hb.
  - apply Byte.of_N_None_iff in Hb. lia.
Qed.

Lemma encode_ascii (s : str) :
  is_ascii s = true -> encode s = Some (map byte_of s).
Proof.
  induction s as [|c s IH]; simpl; intros H; [reflexivity|].
  apply andb_prop in H as [Hc Hs]. unfold utf8_char. rewrite Hc, (IH Hs).
  reflexivity.
Qed.

Lemma is_ascii_app (s t : str) : is_ascii (s ++ t) = is_ascii s && is_ascii t.
Proof. apply forallb_app. Qed.

Lemma header_ascii (req_id timestamp : str) :
  is_ascii req_id = true -> is_ascii timestamp = true ->
  is_ascii (Azure.header req_id timestamp) = true.
Proof.
  intros Hr Ht. unfold Azure.header.
  repeat rewrite is_ascii_app. rewrite Hr, Ht. reflexivity.
Qed.

Lemma pack_H_value (n : N) :
  n < 65536 ->
  exists hi lo, pack_H n = Some [hi; lo] /\ 256 * Byte.to_N hi + Byte.to_N lo = n.
Proof.
  intros Hn. unfold pack_H. apply N.ltb_lt in Hn as Hb. rewrite Hb.
  eexists. eexists. split; [reflexivity|].
  rewrite !to_N_byte_of.
  - symmetry. apply N.div_mod. discriminate.
  - apply N.mod_upper_bound. discriminate.
  - apply N.Div0.div_lt_upper_bound. exact Hn.
Qed.

Lemma split_at_length {A : Type} (l r : list A) (n : nat) :
  n = List.length l ->
  firstn n (l ++ r) = l /\ skipn n (l ++ r) = r.
Proof.
  intros ->. induction l as [|x l [IHf IHs]]; simpl; [split; reflexivity|].
  rewrite IHf, IHs. split; reflexivity.
Qed.

Lemma header_length (req_id timestamp : str) :
  List.length (Azure.header req_id timestamp) =
  (73 + List.length req_id + List.length timestamp)%nat.
Proof.
  unfold Azure.header. repeat rewrite length_app. simpl. lia.
Qed.

(** The headers [send_file] asks for are short: 32 hexadecimal digits and
    a timestamp of at most 26 characters make 131 characters at most. *)
Lemma uuid_header_fits (req_id timestamp : str) :
  List.length req_id = 32%nat ->
  (List.length timestamp <= 26)%nat ->
  N.of_nat (List.length (Azure.header req_id timestamp)) < 65536.
Proof.
  intros Hr Ht. rewrite header_length, Hr. lia.
Qed.

(** C7, as stated, fails outside the request ids the file itself makes:
    the prefix counts the characters of the header, so with one non-ASCII
    character in the id the declared length is one short of the encoded
    header and the split hands the last header byte to the payload; and a
    header of more than 65535 characters has no prefix at all. *)
Lemma prefix_counts_characters :
  let stamp := lit "2018-11-04T08:00:00.000123" in
  match encode (Azure.header [233] stamp),
        Azure.message [233] stamp ["A"%byte] with
  | Some text, Returned m =>
      m = x00 :: x64 :: text ++ ["A"%byte] /\
      List.length text = 101%nat /\
      decode_frame m = Some (removelast text, [x0a; "A"%byte]) /\
      decode_frame m <> Some (text, ["A"%byte])
  | _, _ => False
  end /\
  Azure.message (repeat 48 (N.to_nat 65536)) stamp ["A"%byte] = Raised StructError.
Proof.
  vm_compute. repeat split. discriminate.
Qed.

(** C7, amended: for a request id and a timestamp of ASCII characters
    whose header has fewer than 65536 characters (the 32 hexadecimal
    digits of [uuid4().hex] and the output of [isoformat] are of that
    kind), the message is a two-byte big-endian prefix equal to the byte
    length of the encoded header, then that header, then the payload
    unchanged; reading the prefix and splitting at the declared length
    gives back the header and the payload. *)
Theorem frame_round_trip
    (E : env) (req_id : str) (payload : bytes) (w : world) :
  let timestamp := utcnow_isoformat E (stamps w) in
  is_ascii req_id = true ->
  is_ascii timestamp = true ->
  N.of_nat (List.length (Azure.header req_id timestamp)) < 65536 ->
  exists w' hi lo text,
    Azure.build_message E req_id payload w =
      (w', Returned (hi :: lo :: text ++ payload)) /\
    encode (Azure.header req_id timestamp) = Some text /\
    256 * Byte.to_N hi + Byte.to_N lo = N.of_nat (List.length text) /\
    decode_frame (hi :: lo :: text ++ payload) = Some (text, payload).
Proof.
  intros timestamp Hr Ht Hlen. subst timestamp.
  set (h := Azure.header req_id (utcnow_isoformat E (stamps w))) in *.
  pose proof (encode_ascii _ (header_ascii _ _ Hr Ht)) as Henc. fold h in Henc.
  destruct (@pack_H_value (N.of_nat (List.length h)))
    as [hi [lo [Hpack Hval]]]; [exact Hlen|].
  exists (mkWorld (trace w) (uuids w) (ticks w) (S (stamps w)) (polls w)
                  (sends w) (recvs w)), hi, lo, (map byte_of h).
  split; [|split; [exact Henc|split]].
  - unfold Azure.build_message, Azure.message. unfold_comp.
    fold h. rewrite Hpack, Henc. reflexivity.
  - rewrite length_map. exact Hval.
  - unfold decode_frame. rewrite Hval, Nat2N.id.
    destruct (@split_at_length _ (map byte_of h) payload (List.length h))
      as [Hf Hs]; [symmetry; apply length_map|].
    rewrite Hf, Hs, length_app, length_map.
    replace (_ <=? _)%nat with true; [reflexivity|].
    symmetry. apply Nat.leb_le. apply Nat.le_add_r.
Qed.

Lemma frame_round_trip_witness :
  exists w' hi lo text,
    Azure.build_message (stream end_frame) (hex 0) clip world0 =
      (w', Returned (hi :: lo :: text ++ clip)) /\
    encode (Azure.header (hex 0) (lit "2018-11-04T08:00:00.000123")) = Some text /\
    256 * Byte.to_N hi + Byte.to_N lo = N.of_nat (List.length text) /\
    decode_frame (hi :: lo :: text ++ clip) = Some (text, clip).
Proof.
  apply (@frame_round_trip (stream end_frame) (hex 0) clip world0).
  - reflexivity.
  - reflexivity.
  - reflexivity.
Defined.

(** ** Both providers: the text that is returned *)








(** * Further facts about the code *)

(** ** Azure.bytes_from_file *)

(** X1: for a positive block size the blocks, put end to end, are the
    bytes of the file. *)
Theorem chunks_rebuild_file (chunksize : nat) (data : bytes) :
  (0 < chunksize)%nat -> List.concat (Azure.chunks chunksize data) = data.
Proof.
  funelim (Azure.chunks chunksize data); intros Hpos.
  - lia.
  - reflexivity.
  - cbn [List.concat]. rewrite H by lia. apply firstn_skipn.
Qed.

Lemma chunks_rebuild_file_witness :
  List.concat (Azure.chunks 2 clip) = clip.
Proof.
  apply (@chunks_rebuild_file 2 clip). lia.
Defined.

Lemma chunks_nil_inv (n : nat) (data : bytes) :
  Azure.chunks (S n) data = [] -> data = [].
Proof.
  destruct data as [|b rest]; [reflexivity|]. simp chunks. discriminate.
Qed.

(** X2: no block is empty, none is longer than the block size, and every
    block but the last has exactly the block size. *)
Theorem chunks_sizes (chunksize : nat) (data : bytes) :
  Forall (fun c => (0 < List.length c <= chunksize)%nat)
         (Azure.chunks chunksize data) /\
  Forall (fun c => List.length c = chunksize)
         (removelast (Azure.chunks chunksize data)).
Proof.
  funelim (Azure.chunks chunksize data).
  - split; constructor.
  - split; constructor.
  - destruct H as [Hall Hfull]. split.
    + constructor; [|exact Hall].
      rewrite length_firstn. simpl. lia.
    + destruct (Azure.chunks (S n) (skipn (S n) (b :: rest))) as [|c cs] eqn:Hrest.
      * constructor.
      * change (removelast (firstn (S n) (b :: rest) :: c :: cs))
          with (firstn (S n) (b :: rest) :: removelast (c :: cs)).
        constructor; [|exact Hfull].
        rewrite length_firstn.
        assert (Hlen : (List.length (skipn (S n) (b :: rest)) <> 0)%nat).
        { intros Hz. apply length_zero_iff_nil in Hz. rewrite Hz in Hrest.
          simp chunks in Hrest. discriminate. }
        rewrite length_skipn in Hlen. lia.
Qed.

(** X3: the number of blocks is the length of the file divided by the
    block size, rounded up; an empty file has no block. *)
Theorem chunks_count (chunksize : nat) (data : bytes) :
  (0 < chunksize)%nat ->
  List.length (Azure.chunks chunksize data) =
  ((List.length data + chunksize - 1) / chunksize)%nat.
Proof.
  funelim (Azure.chunks chunksize data); intros Hpos.
  - lia.
  - simpl List.length. rewrite Nat.div_small; lia.
  - cbn [List.length]. rewrite H by lia. rewrite length_skipn.
    cbn [List.length].
    destruct (Nat.le_gt_cases (S n) (S (List.length rest))) as [Hge | Hlt].
    + replace (S (List.length rest) + S n - 1)%nat
        with ((S (List.length rest) - S n + S n - 1) + 1 * S n)%nat by lia.
      rewrite Nat.div_add by lia. lia.
    + replace (S (List.length rest) - S n)%nat with 0%nat by lia.
      rewrite (Nat.div_small (0 + S n - 1)) by lia.
      replace (S (List.length rest) + S n - 1)%nat
        with (List.length rest + 1 * S n)%nat by lia.
      rewrite Nat.div_add by lia. rewrite Nat.div_small by lia. reflexivity.
Qed.

Lemma chunks_count_witness :
  List.length (Azure.chunks 2 clip) = ((List.length clip + 2 - 1) / 2)%nat.
Proof.
  apply (@chunks_count 2 clip). lia.
Defined.

(** ** Azure.mp3_to_wav *)

Lemma startswith_nil (s : str) : startswith s [] = true.
Proof. destruct s; reflexivity. Qed.

Lemma startswith_length (p s : str) :
  startswith s p = true -> (List.length p <= List.length s)%nat.
Proof.
  revert s. induction p as [|y p IH]; intros s H; simpl; [lia|].
  destruct s as [|x s]; simpl in H; [discriminate|].
  apply andb_prop in H as [_ H]. apply IH in H. simpl. lia.
Qed.

Lemma replace_from_length (old new : str) :
  List.length old = List.length new -> old <> [] ->
  forall s skip,
    (skip <= List.length s)%nat ->
    List.length (replace_from skip old new s) = (List.length s - skip)%nat.
Proof.
  intros Hlen Hold s. induction s as [|c s IH]; intros skip Hskip;
    cbn [replace_from].
  - reflexivity.
  - destruct skip as [|k].
    + destruct (startswith (c :: s) old) eqn:Hst.
      * apply startswith_length in Hst. cbn [List.length] in *.
        assert (Hpos : (1 <= List.length old)%nat).
        { destruct old; [contradiction | cbn [List.length]; lia]. }
        rewrite length_app, IH by lia. lia.
      * cbn [List.length]. rewrite IH by lia. lia.
    + cbn [List.length] in *. rewrite IH by lia. reflexivity.
Qed.

Lemma replace_from_absent (old new : str) (s : str) :
  contains_str s old = false -> replace_from 0 old new s = s.
Proof.
  induction s as [|c s IH]; intros H; simpl; [reflexivity|].
  simpl in H. apply orb_false_elim in H as [Hst Hin].
  destruct old as [|o old']; [discriminate|].
  change (startswith (c :: s) (o :: old')) with ((c =? o) && startswith s old') in *.
  rewrite Hst, (IH Hin). reflexivity.
Qed.

(** Behind a part without [.mp3], the first [.mp3] becomes [.wav] and the
    replacement goes on behind it. *)
Lemma replace_first_mp3 (a b : str) :
  contains_str a (lit ".mp3") = false ->
  replace (a ++ lit ".mp3" ++ b) (lit ".mp3") (lit ".wav") =
  a ++ lit ".wav" ++ replace b (lit ".mp3") (lit ".wav").
Proof.
  unfold replace. change (lit ".mp3") with [46; 109; 112; 51].
  change (lit ".wav") with [46; 119; 97; 118].
  induction a as [|c a IH]; intros H.
  - destruct b; reflexivity.
  - change (contains_str (c :: a) [46; 109; 112; 51])
      with (startswith (c :: a) [46; 109; 112; 51] ||
            contains_str a [46; 109; 112; 51]) in H.
    apply orb_false_elim in H as [Hst Hin].
    assert (Hno : startswith ((c :: a) ++ [46; 109; 112; 51] ++ b)
                             [46; 109; 112; 51] = false).
    { clear IH Hin. destruct a as [|c2 [|c3 [|c4 r]]]; cbn in Hst |- *.
      - destruct (c =? 46); reflexivity.
      - destruct (c =? 46), (c2 =? 109); reflexivity.
      - destruct (c =? 46), (c2 =? 109), (c3 =? 112); reflexivity.
      - rewrite startswith_nil in *. exact Hst. }
    change (replace_from 0 [46; 109; 112; 51] [46; 119; 97; 118]
              ((c :: a) ++ [46; 109; 112; 51] ++ b))
      with (if startswith ((c :: a) ++ [46; 109; 112; 51] ++ b) [46; 109; 112; 51]
            then [46; 119; 97; 118] ++
                 replace_from 3 [46; 109; 112; 51] [46; 119; 97; 118]
                   (a ++ [46; 109; 112; 51] ++ b)
            else c :: replace_from 0 [46; 109; 112; 51] [46; 119; 97; 118]
                        (a ++ [46; 109; 112; 51] ++ b)).
    rewrite Hno. cbn [app]. f_equal. exact (IH Hin).
Qed.

(** X4: the name [mp3_to_wav] returns is as long as the name it was given,
    and the file it exports to is the one it names. *)
Theorem wav_name_same_length
    (E : env) (mp3 name : str) (w w' : world) :
  Azure.mp3_to_wav E mp3 w = (w', Returned name) ->
  List.length name = List.length mp3 /\
  trace w' = trace w ++ [Transcode mp3 name].
Proof.
  unfold Azure.mp3_to_wav. unfold_comp. intros H.
  destruct (from_mp3_export E mp3 _); simpl in H; [discriminate|].
  injection H as <- <-. split; [|reflexivity].
  unfold replace. rewrite replace_from_length; simpl; try lia; discriminate.
Qed.

Lemma wav_name_same_length_witness :
  List.length (lit "audio/clip.wav") = List.length (lit "audio/clip.mp3") /\
  trace (fst (Azure.mp3_to_wav stream_open (lit "audio/clip.mp3") world0)) =
  trace world0 ++ [Transcode (lit "audio/clip.mp3") (lit "audio/clip.wav")].
Proof.
  apply (@wav_name_same_length stream_open (lit "audio/clip.mp3")
           (lit "audio/clip.wav") world0
           (fst (Azure.mp3_to_wav stream_open (lit "audio/clip.mp3") world0))).
  vm_compute. reflexivity.
Defined.

(** X5: a name in which [.mp3] does not occur is returned as it is: the
    export of line 100 then writes to the path of the source file. *)
Theorem wav_name_without_mp3
    (E : env) (mp3 : str) (w : world) :
  contains_str mp3 (lit ".mp3") = false ->
  from_mp3_export E mp3 mp3 = None ->
  exists w',
    Azure.mp3_to_wav E mp3 w = (w', Returned mp3) /\
    trace w' = trace w ++ [Transcode mp3 mp3].
Proof.
  intros Habs Hok. unfold Azure.mp3_to_wav, replace.
  rewrite (@replace_from_absent (lit ".mp3") (lit ".wav") mp3 Habs). unfold_comp. rewrite Hok. simpl.
  eexists. split; reflexivity.
Qed.

Lemma wav_name_without_mp3_witness :
  exists w',
    Azure.mp3_to_wav stream_open (lit "audio/clip.MP3") world0 =
      (w', Returned (lit "audio/clip.MP3")) /\
    trace w' = trace world0 ++
               [Transcode (lit "audio/clip.MP3") (lit "audio/clip.MP3")].
Proof.
  apply (@wav_name_without_mp3 stream_open (lit "audio/clip.MP3") world0).
  - vm_compute. reflexivity.
  - reflexivity.
Defined.

(** X6: every [.mp3] of the name becomes [.wav], not the extension alone:
    behind a part [a] without [.mp3], the name [a.mp3b] is turned into
    [a.wav] followed by what [b] is turned into; so [stem.mp3] gives
    [stem.wav] when [.mp3] does not occur in the stem. *)
Theorem wav_name_replaces_each_mp3
    (E : env) (a b : str) (w : world) :
  contains_str a (lit ".mp3") = false ->
  (forall src dst, from_mp3_export E src dst = None) ->
  (exists w',
     Azure.mp3_to_wav E (a ++ lit ".mp3" ++ b) w =
     (w', Returned (a ++ lit ".wav" ++ replace b (lit ".mp3") (lit ".wav")))) /\
  (exists w',
     Azure.mp3_to_wav E (a ++ lit ".mp3") w = (w', Returned (a ++ lit ".wav"))).
Proof.
  intros Habs Hok. split.
  - unfold Azure.mp3_to_wav. rewrite (@replace_first_mp3 a b Habs).
    unfold_comp. rewrite Hok. simpl. eexists. reflexivity.
  - unfold Azure.mp3_to_wav.
    pose proof (@replace_first_mp3 a [] Habs) as Hr.
    change (lit ".mp3" ++ []) with (lit ".mp3") in Hr. rewrite Hr.
    unfold_comp. rewrite Hok. simpl. eexists. reflexivity.
Qed.

Lemma wav_name_replaces_each_mp3_witness :
  exists w',
    Azure.mp3_to_wav stream_open (lit "in.mp3/clip.mp3") world0 =
    (w', Returned (lit "in.wav/clip.wav")).
Proof.
  apply (proj1 (@wav_name_replaces_each_mp3 stream_open (lit "in") (lit "/clip.mp3")
                  world0 eq_refl (fun _ _ => eq_refl))).
Defined.

(** ** Azure.build_message *)

Lemma utf8_char_length (c : char) (b : bytes) :
  utf8_char c = Some b ->
  (1 <= List.length b)%nat /\ (List.length b = 1%nat <-> (c <? 128) = true).
Proof.
  unfold utf8_char. intros H.
  destruct (c <? 128) eqn:H1.
  { injection H as <-. simpl. split; [lia | split; trivial]. }
  destruct (c <? 2048).
  { injection H as <-. simpl. split; [lia | split; [lia | discriminate]]. }
  destruct (c <? 65536).
  { destruct ((55296 <=? c) && (c <=? 57343)); [discriminate|].
    injection H as <-. simpl. split; [lia | split; [lia | discriminate]]. }
  destruct (c <? 1114112); [|discriminate].
  injection H as <-. simpl. split; [lia | split; [lia | discriminate]].
Qed.

Lemma encode_length (s : str) :
  forall b, encode s = Some b ->
    (List.length s <= List.length b)%nat /\
    (List.length b = List.length s <-> is_ascii s = true).
Proof.
  induction s as [|c s IH]; intros b H; simpl in H.
  - injection H as <-. simpl. split; [lia | split; trivial].
  - destruct (utf8_char c) as [bc|] eqn:Hc; [|discriminate].
    destruct (encode s) as [bs|]; [|discriminate].
    injection H as <-.
    destruct (utf8_char_length _ Hc) as [Hpos Hone].
    destruct (IH bs eq_refl) as [Hle Hiff].
    rewrite length_app. cbn [List.length is_ascii forallb]. split; [lia|].
    fold (is_ascii s). rewrite andb_true_iff, <- Hone, <- Hiff. lia.
Qed.

Lemma header_is_ascii (req_id timestamp : str) :
  is_ascii (Azure.header req_id timestamp) = is_ascii req_id && is_ascii timestamp.
Proof.
  unfold Azure.header. repeat rewrite is_ascii_app.
  change (is_ascii (lit "X-RequestId: ")) with true.
  change (is_ascii (lit "X-Timestamp: ")) with true.
  change (is_ascii (lit "Z")) with true.
  change (is_ascii (lit "Path: audio")) with true.
  change (is_ascii (lit "Content-Type: audio/x-wav")) with true.
  change (is_ascii [CR; LF]) with true.
  cbn [andb]. rewrite !andb_true_r. reflexivity.
Qed.

(** X7: whatever the request id, a message that [build_message] returns
    is a two-byte prefix, the encoded header and the payload unchanged; the
    prefix is the number of characters of the header, which is never more
    than the number of its bytes and equals it exactly when request id and
    timestamp are ASCII.  Building a message reads the clock once and
    sends nothing. *)
Theorem prefix_is_character_count
    (E : env) (req_id : str) (payload m : bytes) (w w' : world) :
  Azure.build_message E req_id payload w = (w', Returned m) ->
  let timestamp := utcnow_isoformat E (stamps w) in
  exists hi lo text,
    m = hi :: lo :: text ++ payload /\
    encode (Azure.header req_id timestamp) = Some text /\
    256 * Byte.to_N hi + Byte.to_N lo =
      N.of_nat (List.length (Azure.header req_id timestamp)) /\
    (List.length (Azure.header req_id timestamp) <= List.length text)%nat /\
    (List.length text = List.length (Azure.header req_id timestamp) <->
     is_ascii req_id && is_ascii timestamp = true) /\
    trace w' = trace w /\ stamps w' = S (stamps w) /\ sends w' = sends w.
Proof.
  intros H timestamp.
  unfold Azure.build_message, Azure.message, bind, utcnow, lift in H.
  cbv beta iota zeta in H. fold timestamp in H.
  set (h := Azure.header req_id timestamp) in *.
  destruct (pack_H (N.of_nat (List.length h))) as [prefix|] eqn:Hpack;
    cbv beta iota in H; [|discriminate].
  destruct (encode h) as [text|] eqn:Henc; cbv beta iota in H; [|discriminate].
  injection H as <- <-.
  assert (Hlt : N.of_nat (List.length h) < 65536).
  { unfold pack_H in Hpack.
    destruct (N.of_nat (List.length h) <? 65536) eqn:Hb; [|discriminate].
    apply N.ltb_lt. exact Hb. }
  destruct (pack_H_value Hlt) as [hi [lo [Hp Hval]]].
  rewrite Hp in Hpack. injection Hpack as <-.
  destruct (encode_length _ Henc) as [Hle Hiff].
  exists hi, lo, text. repeat split; try assumption.
  - intros Hl. unfold h in *. rewrite <- header_is_ascii. apply Hiff. exact Hl.
  - intros Ha. apply Hiff. unfold h. rewrite header_is_ascii. exact Ha.
Qed.

Lemma prefix_is_character_count_witness :
  exists hi lo text,
    snd_message (Azure.build_message stream_open [233] clip world0) =
      hi :: lo :: text ++ clip /\
    256 * Byte.to_N hi + Byte.to_N lo = 100 /\
    List.length text = 101%nat.
Proof.
  assert (Hrun : Azure.build_message stream_open [233] clip world0 =
                 (fst (Azure.build_message stream_open [233] clip world0),
                  Returned (snd_message
                              (Azure.build_message stream_open [233] clip world0))))
    by (vm_compute; reflexivity).
  destruct (prefix_is_character_count Hrun)
    as [hi [lo [text [Hm [Henc [Hval _]]]]]].
  exists hi, lo, text. split; [exact Hm|].
  split; [rewrite Hval; vm_compute; reflexivity|].
  vm_compute in Henc. injection Henc as <-. reflexivity.
Defined.

(** ** Azure.extract_json_body *)

Lemma search_separator_first (pre post : str) :
  forall ls pos,
    (pre = [] -> ls = true) ->
    (pre <> [] -> exists p, pre = p ++ [LF]) ->
    Azure.search_separator ls pos pre = None ->
    Azure.search_separator ls pos (pre ++ CR :: LF :: post) =
    Some (pos + List.length pre + 2)%nat.
Proof.
  induction pre as [|c pre IH]; intros ls pos Hnil Hcons Hnone.
  - rewrite (Hnil eq_refl). simpl. f_equal. lia.
  - simpl in Hnone. cbn [app Azure.search_separator].
    destruct Hcons as [p Hp]; [discriminate|].
    destruct pre as [|d pre'].
    + assert (c = LF) as ->.
      { destruct p as [|y p']; [injection Hp as ->; reflexivity|].
        injection Hp as _ Hp. destruct p'; discriminate. }
      cbn [app]. change (LF =? CR) with false. rewrite andb_false_r.
      cbn [andb]. change (LF =? LF) with true.
      simpl. f_equal. lia.
    + cbn [app] in *.
      destruct (ls && (c =? CR) && (d =? LF)); [discriminate|].
      rewrite (IH (c =? LF) (S pos)); [f_equal; simpl; lia | discriminate | | exact Hnone].
      intros _. destruct p as [|y p']; [discriminate|].
      injection Hp as _ Hp. exists p'. exact Hp.
Qed.

Lemma skipn_past {A : Type} (l r : list A) (n : nat) :
  n = List.length l -> skipn n (l ++ r) = r.
Proof.
  intros ->. induction l as [|x l IH]; simpl; [reflexivity | exact IH].
Qed.

(** X8: when the header part holds no empty line and the empty line
    follows it, the body handed to [json.loads] is exactly the text behind
    that first empty line: its value is returned, and [JSONDecodeError] is
    raised when it is not JSON. *)
Theorem body_follows_first_empty_line (E : env) (pre post : str) :
  line_start pre ->
  ~ separated pre ->
  Azure.extract_json_body E (Text (pre ++ CR :: LF :: post)) =
  match json_loads E post with
  | Some content => Returned content
  | None => Raised JSONDecodeError
  end.
Proof.
  intros Hline Hsep. unfold Azure.extract_json_body.
  rewrite (@search_separator_first pre post true 0%nat).
  - replace (skipn (0 + List.length pre + 2) (pre ++ CR :: LF :: post)) with post;
      [reflexivity|].
    replace (pre ++ CR :: LF :: post) with ((pre ++ [CR; LF]) ++ post)
      by (rewrite <- app_assoc; reflexivity).
    symmetry. apply skipn_past. rewrite length_app. simpl. lia.
  - reflexivity.
  - intros Hne. destruct Hline as [Hnil | Hp]; [contradiction | exact Hp].
  - apply search_separator_none. exact Hsep.
Qed.

Lemma body_follows_first_empty_line_witness :
  Azure.extract_json_body stream_open
    (Text ((lit "Path: speech.phrase" ++ [CR; LF]) ++ CR :: LF :: lit "{oops")) =
  Raised JSONDecodeError.
Proof.
  apply (@body_follows_first_empty_line stream_open
           (lit "Path: speech.phrase" ++ [CR; LF]) (lit "{oops")).
  - right. exists (lit "Path: speech.phrase" ++ [CR]). reflexivity.
  - apply search_separator_none. vm_compute. reflexivity.
Defined.

(** ** Azure.send_file *)

Lemma message_decodes (req_id timestamp : str) (payload : bytes) :
  is_ascii req_id = true ->
  is_ascii timestamp = true ->
  N.of_nat (List.length (Azure.header req_id timestamp)) < 65536 ->
  exists m text,
    Azure.message req_id timestamp payload = Returned m /\
    encode (Azure.header req_id timestamp) = Some text /\
    decode_frame m = Some (text, payload).
Proof.
  intros Hr Ht Hlen.
  set (h := Azure.header req_id timestamp) in *.
  pose proof (encode_ascii _ (header_ascii _ _ Hr Ht)) as Henc. fold h in Henc.
  destruct (pack_H_value Hlen) as [hi [lo [Hpack Hval]]].
  exists (hi :: lo :: map byte_of h ++ payload), (map byte_of h).
  split; [|split; [exact Henc|]].
  - unfold Azure.message. fold h. rewrite Hpack, Henc. reflexivity.
  - unfold decode_frame. rewrite Hval, Nat2N.id.
    destruct (@split_at_length _ (map byte_of h) payload (List.length h))
      as [Hf Hs]; [symmetry; apply length_map|].
    rewrite Hf, Hs, length_app, length_map.
    replace (_ <=? _)%nat with true; [reflexivity|].
    symmetry. apply Nat.leb_le. apply Nat.le_add_r.
Qed.

Lemma send_all_delivers (E : env) (req_id : str) (payloads : list bytes) :
  plain_headers E req_id ->
  forall w,
    (forall i, (i < List.length payloads)%nat -> send E (sends w + i) = None) ->
    exists w' ms,
      Azure.send_all E req_id payloads w = (w', Returned tt) /\
      trace w' = trace w ++ map Send ms /\
      Forall2 (carries req_id) ms payloads /\
      ticks w' = ticks w /\ recvs w' = recvs w.
Proof.
  intros [Hid Hts]. induction payloads as [|p ps IH]; intros w Hsend.
  - exists w, []. simpl. unfold_comp. rewrite app_nil_r.
    repeat split. constructor.
  - destruct (Hts (stamps w)) as [Hascii Hfit].
    destruct (message_decodes p Hid Hascii Hfit) as [m [text [Hm [Henc Hdec]]]].
    set (w1 := mkWorld (trace w ++ [Send m]) (uuids w) (ticks w) (S (stamps w))
                       (polls w) (S (sends w)) (recvs w)).
    destruct (IH w1) as [w' [ms [Hrun [Htr [Hall [Ht Hv]]]]]].
    { intros i Hi. unfold w1; cbn [sends].
      replace (S (sends w) + i)%nat with (sends w + S i)%nat by lia.
      apply Hsend. simpl. lia. }
    exists w', (m :: ms). split; [|split; [|split; [|split]]].
    + cbn [Azure.send_all]. unfold Azure.build_message, Azure.websocket_send.
      unfold bind at 1. unfold bind at 1. unfold utcnow, lift.
      cbv beta iota. rewrite Hm. cbv beta iota.
      unfold bind at 1. unfold effect.
      cbn [trace uuids ticks stamps polls sends recvs].
      pose proof (Hsend 0%nat ltac:(simpl; lia)) as H0.
      rewrite Nat.add_0_r in H0. rewrite H0. unfold log. cbv beta iota.
      cbn [trace uuids ticks stamps polls sends recvs].
      exact Hrun.
    + rewrite Htr. unfold w1; simpl. rewrite <- app_assoc. reflexivity.
    + constructor; [|exact Hall]. exists (utcnow_isoformat E (stamps w)), text.
      split; assumption.
    + rewrite Ht. reflexivity.
    + rewrite Hv. reflexivity.
Qed.

Lemma carried_payloads (req_id : str) (ms payloads : list bytes) :
  Forall2 (carries req_id) ms payloads -> map payload_of ms = payloads.
Proof.
  induction 1 as [|m p ms ps [ts [text [_ Hdec]]] _ IH]; [reflexivity|].
  simpl. unfold payload_of at 1. rewrite Hdec, IH. reflexivity.
Qed.

Lemma send_all_fails (E : env) (req_id : str) (e : exn) (payloads : list bytes) :
  plain_headers E req_id ->
  forall w k,
    (k < List.length payloads)%nat ->
    (forall i, (i < k)%nat -> send E (sends w + i) = None) ->
    send E (sends w + k) = Some e ->
    exists w' ms,
      Azure.send_all E req_id payloads w = (w', Raised e) /\
      trace w' = trace w ++ map Send ms /\
      Forall2 (carries req_id) ms (firstn k payloads).
Proof.
  intros [Hid Hts]. induction payloads as [|p ps IH]; intros w k Hk Hok Hbad.
  - simpl in Hk. lia.
  - destruct (Hts (stamps w)) as [Hascii Hfit].
    destruct (message_decodes p Hid Hascii Hfit) as [m [text [Hm [Henc Hdec]]]].
    assert (Hstep :
               Azure.send_all E req_id (p :: ps) w =
               (let (w0, r) :=
                  Azure.websocket_send E m
                    (mkWorld (trace w) (uuids w) (ticks w) (S (stamps w))
                             (polls w) (sends w) (recvs w)) in
                match r with
                | Returned _ => Azure.send_all E req_id ps w0
                | Raised x => (w0, Raised x)
                | Blocked => (w0, Blocked)
                | Running => (w0, Running)
                end)).
    { cbn [Azure.send_all]. unfold Azure.build_message.
      unfold bind at 1. unfold bind at 1. unfold utcnow, lift.
      cbv beta iota. rewrite Hm. cbv beta iota. reflexivity. }
    rewrite Hstep. clear Hstep.
    unfold Azure.websocket_send, effect.
    cbn [trace uuids ticks stamps polls sends recvs].
    destruct k as [|k].
    + rewrite Nat.add_0_r in Hbad. rewrite Hbad. unfold raise.
      eexists. exists []. split; [reflexivity|].
      split; [simpl; rewrite app_nil_r; reflexivity | constructor].
    + pose proof (Hok 0%nat ltac:(lia)) as H0. rewrite Nat.add_0_r in H0.
      rewrite H0. unfold log. cbv beta iota.
      cbn [trace uuids ticks stamps polls sends recvs].
      set (w1 := mkWorld (trace w ++ [Send m]) (uuids w) (ticks w) (S (stamps w))
                         (polls w) (S (sends w)) (recvs w)).
      destruct (IH w1 k) as [w' [ms [Hrun [Htr Hall]]]].
      * simpl in Hk. lia.
      * intros i Hi. unfold w1; cbn [sends].
        replace (S (sends w) + i)%nat with (sends w + S i)%nat by lia.
        apply Hok. lia.
      * unfold w1; cbn [sends].
        replace (S (sends w) + k)%nat with (sends w + S k)%nat by lia.
        exact Hbad.
      * exists w', (m :: ms). split; [exact Hrun|]. split.
        -- rewrite Htr. unfold w1; simpl. rewrite <- app_assoc. reflexivity.
        -- simpl. constructor; [|exact Hall].
           exists (utcnow_isoformat E (stamps w)), text. split; assumption.
Qed.

(** X9: with a readable file, ASCII request id and timestamps and a socket
    that takes every message, [send_file] sends one message per block of
    the file, in order and nothing else, every one under the request id
    drawn at the start and carrying its block unchanged; the payloads read
    back from the messages, put end to end, are the file. *)
Theorem send_file_delivers_file
    (E : env) (filename : str) (data : bytes) (w : world) :
  open_rb E filename = inr data ->
  plain_headers E (uuid4_hex E (uuids w)) ->
  (forall i, send E (sends w + i) = None) ->
  exists w' ms,
    Azure.send_file E filename w = (w', Returned tt) /\
    trace w' = trace w ++ map Send ms /\
    Forall2 (carries (uuid4_hex E (uuids w))) ms
            (Azure.chunks (N.to_nat 8192) data) /\
    List.concat (map payload_of ms) = data.
Proof.
  intros Hopen Hplain Hsend.
  set (w0 := mkWorld (trace w) (S (uuids w)) (ticks w) (stamps w)
                     (polls w) (sends w) (recvs w)).
  destruct (@send_all_delivers E (uuid4_hex E (uuids w))
              (Azure.chunks (N.to_nat 8192) data) Hplain w0)
    as [w' [ms [Hrun [Htr [Hall _]]]]].
  { intros i _. apply Hsend. }
  exists w', ms. split; [|split; [exact Htr | split; [exact Hall|]]].
  - unfold Azure.send_file, Azure.bytes_from_file.
    unfold bind at 1. unfold uuid4. cbv beta iota.
    rewrite Hopen. unfold bind at 1. unfold ret. cbv beta iota. exact Hrun.
  - rewrite (carried_payloads Hall). apply chunks_concat.
    change (N.to_nat 8192) with (Pos.to_nat 8192). apply Pos2Nat.is_pos.
Qed.

Lemma send_file_delivers_file_witness :
  exists w' ms,
    Azure.send_file stream_open (lit "audio/clip.wav") world0 = (w', Returned tt) /\
    trace w' = trace world0 ++ map Send ms /\
    Forall2 (carries (hex 0)) ms (Azure.chunks (N.to_nat 8192) clip) /\
    List.concat (map payload_of ms) = clip.
Proof.
  apply (@send_file_delivers_file stream_open (lit "audio/clip.wav") clip world0).
  - reflexivity.
  - split; [reflexivity|]. intros k. split; reflexivity.
  - intros i. reflexivity.
Defined.

(** X10: when the socket refuses message number [k], [send_file] raises
    that error having sent the [k] messages before it, one per block, and
    no later one. *)
Theorem send_file_stops_at_failure
    (E : env) (filename : str) (data : bytes) (w : world) (k : nat) (e : exn) :
  open_rb E filename = inr data ->
  plain_headers E (uuid4_hex E (uuids w)) ->
  (k < List.length (Azure.chunks (N.to_nat 8192) data))%nat ->
  (forall i, (i < k)%nat -> send E (sends w + i) = None) ->
  send E (sends w + k) = Some e ->
  exists w' ms,
    Azure.send_file E filename w = (w', Raised e) /\
    trace w' = trace w ++ map Send ms /\
    List.length ms = k /\
    Forall2 (carries (uuid4_hex E (uuids w))) ms
            (firstn k (Azure.chunks (N.to_nat 8192) data)).
Proof.
  intros Hopen Hplain Hk Hok Hbad.
  set (w0 := mkWorld (trace w) (S (uuids w)) (ticks w) (stamps w)
                     (polls w) (sends w) (recvs w)).
  destruct (@send_all_fails E (uuid4_hex E (uuids w)) e
              (Azure.chunks (N.to_nat 8192) data) Hplain w0 k Hk Hok Hbad)
    as [w' [ms [Hrun [Htr Hall]]]].
  exists w', ms. split; [|split; [exact Htr | split; [|exact Hall]]].
  - unfold Azure.send_file, Azure.bytes_from_file.
    unfold bind at 1. unfold uuid4. cbv beta iota.
    rewrite Hopen. unfold bind at 1. unfold ret. cbv beta iota. exact Hrun.
  - apply Forall2_length in Hall. rewrite Hall, length_firstn. lia.
Qed.

Lemma send_file_stops_at_failure_witness :
  exists w' ms,
    Azure.send_file (stream_cut end_frame) (lit "audio/clip.wav") world0 =
      (w', Raised (Foreign "ConnectionClosed")) /\
    trace w' = trace world0 ++ map Send ms /\
    List.length ms = 1%nat /\
    Forall2 (carries (hex 0)) ms
            (firstn 1 (Azure.chunks (N.to_nat 8192) long_clip)).
Proof.
  apply (@send_file_stops_at_failure (stream_cut end_frame) (lit "audio/clip.wav")
           long_clip world0 1 (Foreign "ConnectionClosed")).
  - reflexivity.
  - split; [reflexivity|]. intros k. split; reflexivity.
  - vm_compute. lia.
  - intros i Hi. destruct i as [|i]; [reflexivity | lia].
  - reflexivity.
Defined.

(** ** Azure.get_text: the session *)

Lemma count_connects_app (t u : list event) :
  count_connects (t ++ u) = (count_connects t + count_connects u)%nat.
Proof.
  induction t as [|e t IH]; simpl; [reflexivity|].
  destruct e; simpl; rewrite IH; reflexivity.
Qed.

Lemma count_closes_app (t u : list event) :
  count_closes (t ++ u) = (count_closes t + count_closes u)%nat.
Proof.
  induction t as [|e t IH]; simpl; [reflexivity|].
  destruct e; simpl; rewrite IH; reflexivity.
Qed.

Lemma calm_counts_nil (t : list event) :
  forallb (fun e => negb (session_event e)) t = true ->
  count_connects t = 0%nat /\ count_closes t = 0%nat.
Proof.
  induction t as [|e t IH]; simpl; intros H; [split; reflexivity|].
  apply andb_prop in H as [He Ht]. destruct (IH Ht) as [Hc Hl].
  destruct e; simpl in *; try discriminate; split; assumption.
Qed.

Lemma calm_refl (w w' : world) : trace w' = trace w -> calm w w'.
Proof.
  intros H. exists []. rewrite app_nil_r. split; [exact H | reflexivity].
Qed.

Lemma calm_trans (w1 w2 w3 : world) : calm w1 w2 -> calm w2 w3 -> calm w1 w3.
Proof.
  intros [t [Ht Hc]] [u [Hu Hd]]. exists (t ++ u). split.
  - rewrite Hu, Ht, app_assoc. reflexivity.
  - rewrite forallb_app, Hc, Hd. reflexivity.
Qed.

Lemma calm_step (w w' : world) (e : event) :
  trace w' = trace w ++ [e] -> session_event e = false -> calm w w'.
Proof.
  intros H He. exists [e]. split; [exact H|]. simpl. rewrite He. reflexivity.
Qed.

Lemma calm_counts (w w' : world) :
  calm w w' ->
  count_connects (trace w') = count_connects (trace w) /\
  count_closes (trace w') = count_closes (trace w).
Proof.
  intros [t [Ht Hc]]. destruct (calm_counts_nil _ Hc) as [H1 H2].
  rewrite Ht, count_connects_app, count_closes_app, H1, H2. lia.
Qed.

Lemma send_all_calm (E : env) (req_id : str) (payloads : list bytes) :
  forall w w' r,
    Azure.send_all E req_id payloads w = (w', r) -> calm w w'.
Proof.
  induction payloads as [|p ps IH]; intros w w' r H; simpl in H.
  - unfold_comp. pair_eq H. apply calm_refl. reflexivity.
  - unfold Azure.build_message, Azure.websocket_send in H. unfold_comp.
    destruct (Azure.message req_id _ p) as [m| | |];
      try (pair_eq H; apply calm_refl; reflexivity).
    destruct (send E (sends w)); simpl in H.
    + pair_eq H. apply calm_refl. reflexivity.
    + apply IH in H. eapply calm_trans; [|exact H].
      eapply calm_step; simpl; reflexivity.
Qed.

Lemma receive_calm (E : env) (timeout : Q) (fuel : nat) :
  forall w w' r,
    Azure.receive E fuel timeout w = (w', r) -> calm w w'.
Proof.
  induction fuel as [|fuel IH]; intros w w' r H; simpl in H.
  - unfold_comp. pair_eq H. apply calm_refl. reflexivity.
  - unfold Azure.websocket_recv in H. unfold_comp.
    destruct (Azure.before (time_time E (ticks w)) timeout).
    2: { pair_eq H. apply calm_refl. reflexivity. }
    simpl in H. destruct (recv E (recvs w)) as [f|e|]; simpl in H;
      try (pair_eq H; apply calm_refl; reflexivity).
    assert (Hread : forall q : result pyval,
               (mkWorld (trace w ++ [Recv f]) (uuids w) (S (ticks w)) (stamps w)
                        (polls w) (sends w) (S (recvs w)), q) = (w', r) ->
               calm w w').
    { intros q Hq. pair_eq Hq. eapply calm_step; simpl; reflexivity. }
    destruct (Azure.extract_json_body E f) as [content| | |]; eauto.
    destruct (Azure.status_is content "Success") as [[|]| | |]; eauto.
    + destruct (getitem content (KStr "NBest")) as [nbest| | |]; eauto.
      destruct (getitem nbest (KInt 0)) as [first| | |]; eauto.
      destruct (getitem first (KStr "Display")) as [answer| | |]; eauto.
    + destruct (Azure.status_is content "EndOfDictation") as [[|]| | |]; eauto.
      apply IH in H. eapply calm_trans; [|exact H].
      exists [Recv f; Sleep 1]. simpl. rewrite <- app_assoc. split; reflexivity.
Qed.

Lemma session_body_calm (E : env) (wav : str) (fuel : nat) (w w' : world)
    (r : result pyval) :
  (Azure.send_file E wav ;;;
   t0 <- now E ;;
   Azure.receive E fuel (float_add t0 15)) w = (w', r) ->
  calm w w'.
Proof.
  unfold Azure.send_file, Azure.bytes_from_file. unfold_comp. intros H.
  destruct (open_rb E wav) as [e|data]; simpl in H.
  { pair_eq H. apply calm_refl. reflexivity. }
  match type of H with
  | context [Azure.send_all E ?q ?ps ?x] =>
      destruct (Azure.send_all E q ps x) as [w2 r2] eqn:Hs
  end.
  apply send_all_calm in Hs.
  assert (Hsent : calm w w2).
  { eapply calm_trans; [|exact Hs]. apply calm_refl. reflexivity. }
  destruct r2 as [[]| | |]; try (pair_eq H; exact Hsent).
  apply receive_calm in H. eapply calm_trans; [exact Hsent|].
  eapply calm_trans; [|exact H]. apply calm_refl. reflexivity.
Qed.

(** X11: [get_text] opens at most one session, and the session is closed
    on every way out: when the call returns, one session was opened and its
    closing is the last thing that happened; when it raises, every session
    it opened has been closed; while it waits or is still looping, the one
    session is open. *)
Theorem session_closed_on_every_exit
    (E : env) (self : Azure.instance) (fuel : nat) (arg : str)
    (w : world) (r : result pyval) :
  Azure.get_text E self fuel arg world0 = (w, r) ->
  (count_connects (trace w) <= 1)%nat /\
  match r with
  | Returned _ =>
      count_connects (trace w) = 1%nat /\ count_closes (trace w) = 1%nat /\
      exists t, trace w = t ++ [Close]
  | Raised _ =>
      count_closes (trace w) = count_connects (trace w) /\
      (count_connects (trace w) = 1%nat -> exists t, trace w = t ++ [Close])
  | Blocked | Running =>
      count_connects (trace w) = 1%nat /\ count_closes (trace w) = 0%nat
  end.
Proof.
  unfold Azure.get_text, Azure.with_session, Azure.mp3_to_wav. intros H.
  destruct (Azure.mp3_filename self) as [f|].
  2: { unfold_comp. pair_eq H. simpl. repeat split; lia. }
  unfold bind at 1 in H. unfold ret at 1 in H. cbv beta iota in H.
  unfold bind at 1 in H. unfold bind at 1 in H. unfold effect at 1 in H.
  destruct (from_mp3_export E f _).
  { unfold_comp. pair_eq H. simpl. repeat split; lia. }
  unfold log at 1 in H. cbv beta iota in H. unfold ret at 1 in H.
  cbv beta iota in H.
  unfold bind at 1 in H. unfold uuid4 at 1 in H. cbv beta iota in H.
  unfold bind at 1 in H. unfold effect at 1 in H.
  destruct (connect E _).
  { unfold raise in H. cbv beta iota in H. pair_eq H. simpl.
    repeat split; lia. }
  unfold log at 1 in H. cbv beta iota in H.
  cbn [trace uuids ticks stamps polls sends recvs] in H.
  match type of H with
  | (let (w', r) := ?body ?x in _) = _ =>
      destruct (body x) as [w3 r3] eqn:Hbody
  end.
  apply session_body_calm in Hbody. apply calm_counts in Hbody.
  cbn [trace] in Hbody. destruct Hbody as [Hc Hl].
  rewrite count_connects_app in Hc. rewrite count_closes_app in Hl.
  simpl in Hc, Hl.
  destruct r3 as [v|e| |]; pair_eq H; simpl;
    rewrite ?count_connects_app, ?count_closes_app, ?Hc, ?Hl; simpl.
  - repeat split; try lia. eexists. reflexivity.
  - repeat split; try lia. intros _. eexists. reflexivity.
  - repeat split; lia.
  - repeat split; lia.
Qed.

Lemma session_closed_on_every_exit_witness :
  let out := Azure.get_text (stream bare_frame) speaker 10 (lit "clip.mp3") world0 in
  snd out = Raised AttributeError /\
  count_connects (trace (fst out)) = 1%nat /\
  count_closes (trace (fst out)) = 1%nat /\
  exists t, trace (fst out) = t ++ [Close].
Proof.
  intros out.
  assert (Hr : snd out = Raised AttributeError) by (vm_compute; reflexivity).
  pose proof (@session_closed_on_every_exit (stream bare_frame) speaker 10
                (lit "clip.mp3") (fst out) (snd out) (surjective_pairing out))
    as [_ Hsession].
  rewrite Hr in Hsession. destruct Hsession as [Hsame Hlast].
  assert (Hone : count_connects (trace (fst out)) = 1%nat)
    by (vm_compute; reflexivity).
  split; [exact Hr|]. split; [exact Hone|]. split; [congruence|].
  apply Hlast. exact Hone.
Defined.

(** ** Azure.get_text: the receive loop *)

Lemma close_after_result {A : Type} (w : world) (r : result A) :
  exists w', close_after (w, r) = (w', r) /\ recvs w' = recvs w.
Proof.
  destruct r; eexists; split; reflexivity.
Qed.

(** The call ends the way the round that reads frame [n] ends. *)
Lemma get_text_round (E : env) (self : Azure.instance) (n fuel k : nat)
    (arg : str) (w1 : world) (r : result pyval) :
  open_and_send E self world0 = (w1, Returned tt) ->
  rounds_idle E (deadline E) listening n ->
  (n < fuel)%nat ->
  (forall w, ticks w = S n -> recvs w = n ->
     exists w', Azure.receive E (S (fuel - S n)) (deadline E) w = (w', r) /\
                recvs w' = k) ->
  exists w, Azure.get_text E self fuel arg world0 = (w, r) /\ recvs w = k.
Proof.
  intros Hopen Hidle Hfuel Hround.
  destruct (get_text_listens self (S (fuel - S n)) arg Hopen Hidle)
    as [w' [He [Ht Hv]]].
  destruct (Hround w' Ht Hv) as [w2 [Hr Hk]].
  destruct (close_after_result w2 r) as [w3 [Hc Hv3]].
  exists w3. split; [|congruence].
  replace fuel with (n + S (fuel - S n))%nat by lia.
  rewrite He, Hr. exact Hc.
Qed.

(** X12: an error in round [n] of the loop, from [websocket.recv] or from
    reading the body of the frame (no empty line, not JSON, a binary
    frame), ends the attempt with that error; the frames behind it are not
    read, even where a final frame would follow. *)
Theorem loop_error_ends_attempt
    (E : env) (self : Azure.instance) (n fuel : nat) (arg : str) (w1 : world)
    (e : exn) :
  open_and_send E self world0 = (w1, Returned tt) ->
  rounds_idle E (deadline E) listening n ->
  Azure.before (time_time E (S n)) (deadline E) = true ->
  (recv E n = Fails e \/
   exists f, recv E n = Arrives f /\ Azure.extract_json_body E f = Raised e) ->
  (n < fuel)%nat ->
  exists w, Azure.get_text E self fuel arg world0 = (w, Raised e) /\
            recvs w = S n.
Proof.
  intros Hopen Hidle Hclock Hbad Hfuel.
  apply (get_text_round self arg Hopen Hidle Hfuel).
  intros w Ht Hv. simpl. unfold Azure.websocket_recv. unfold_comp.
  rewrite Ht, Hclock, Hv. simpl.
  destruct Hbad as [Hfail | [f [Hf Hx]]].
  - rewrite Hfail. eexists. split; reflexivity.
  - rewrite Hf. simpl. rewrite Hx. eexists. split; reflexivity.
Qed.

Lemma loop_error_ends_attempt_witness :
  exists w,
    Azure.get_text (stream (Binary clip)) speaker 10 (lit "clip.mp3") world0 =
      (w, Raised TypeError) /\
    recvs w = 3%nat.
Proof.
  apply (@loop_error_ends_attempt (stream (Binary clip)) speaker 2 10
           (lit "clip.mp3")
           (fst (open_and_send (stream (Binary clip)) speaker world0))
           TypeError).
  - vm_compute. reflexivity.
  - apply stream_rounds_idle.
  - vm_compute. reflexivity.
  - right. exists (Binary clip). split; reflexivity.
  - lia.
Defined.

(** X13: when the socket delivers nothing in round [n], the call waits in
    [websocket.recv] whatever the clock reads afterwards and however long
    the model is run: the bound of line 140 is not looked at while
    waiting. *)
Theorem silent_socket_waits
    (E : env) (self : Azure.instance) (n : nat) (arg : str) (w1 : world) :
  open_and_send E self world0 = (w1, Returned tt) ->
  rounds_idle E (deadline E) listening n ->
  Azure.before (time_time E (S n)) (deadline E) = true ->
  recv E n = Silent ->
  forall fuel, (n < fuel)%nat ->
    exists w, Azure.get_text E self fuel arg world0 = (w, Blocked) /\
              recvs w = S n /\ ticks w = S (S n).
Proof.
  intros Hopen Hidle Hclock Hsilent fuel Hfuel.
  destruct (get_text_listens self (S (fuel - S n)) arg Hopen Hidle)
    as [w' [He [Ht Hv]]].
  replace fuel with (n + S (fuel - S n))%nat by lia. rewrite He.
  simpl. unfold Azure.websocket_recv. unfold_comp.
  rewrite Ht, Hclock, Hv. simpl. rewrite Hsilent. simpl.
  eexists. split; [reflexivity|]. simpl. split; congruence.
Qed.

Lemma silent_socket_waits_witness :
  exists w,
    Azure.get_text stream_silent speaker 40 (lit "clip.mp3") world0 =
      (w, Blocked) /\
    recvs w = 1%nat /\ ticks w = 2%nat.
Proof.
  apply (@silent_socket_waits stream_silent speaker 0 (lit "clip.mp3")
           (fst (open_and_send stream_silent speaker world0))).
  - vm_compute. reflexivity.
  - intros i Hi. lia.
  - vm_compute. reflexivity.
  - reflexivity.
  - lia.
Defined.

(** X14: on a frame with status [Success] the call ends the way lines
    148-149 end on its body, after exactly that frame: with the trimmed
    text, or with the error of the first step that fails - [KeyError] for a
    body without [NBest], [IndexError] for an empty [NBest], [TypeError]
    for a [Display] that is [null]. *)
Theorem success_frame_decides
    (E : env) (self : Azure.instance) (n fuel : nat) (arg : str) (w1 : world)
    (f : frame) (content : pyval) :
  open_and_send E self world0 = (w1, Returned tt) ->
  rounds_idle E (deadline E) listening n ->
  Azure.before (time_time E (S n)) (deadline E) = true ->
  recv E n = Arrives f ->
  Azure.extract_json_body E f = Returned content ->
  getitem content (KStr "RecognitionStatus") = Returned (PStr (lit "Success")) ->
  (n < fuel)%nat ->
  (exists w, Azure.get_text E self fuel arg world0 = (w, best_answer E content) /\
             recvs w = S n) /\
  (getitem content (KStr "NBest") = Raised KeyError ->
   best_answer E content = Raised KeyError) /\
  (getitem content (KStr "NBest") = Returned (PList []) ->
   best_answer E content = Raised IndexError) /\
  (forall members,
     getitem content (KStr "NBest") = Returned (PList [PDict members]) ->
     lookup (lit "Display") members = Some PNone ->
     best_answer E content = Raised TypeError).
Proof.
  intros Hopen Hidle Hclock Hrecv Hbody Hs Hfuel. split; [|split; [|split]].
  - apply (get_text_round self arg Hopen Hidle Hfuel).
    intros w Ht Hv. simpl. unfold Azure.websocket_recv. unfold_comp.
    rewrite Ht, Hclock, Hv. simpl. rewrite Hrecv. simpl.
    rewrite Hbody, (@status_is_member content _ "Success"%string Hs). simpl.
    unfold best_answer.
    destruct (getitem content (KStr "NBest")) as [nbest| | |]; simpl;
      try (eexists; split; reflexivity).
    destruct (getitem nbest (KInt 0)) as [first| | |]; simpl;
      try (eexists; split; reflexivity).
    destruct (getitem first (KStr "Display")) as [answer| | |]; simpl;
      eexists; split; reflexivity.
  - intros Hn. unfold best_answer. rewrite Hn. reflexivity.
  - intros Hn. unfold best_answer. rewrite Hn. reflexivity.
  - intros members Hn Hd. unfold best_answer. rewrite Hn. simpl.
    rewrite Hd. reflexivity.
Qed.

Lemma success_frame_decides_witness :
  exists w,
    Azure.get_text
      (stream (reply "speech.phrase" "{'RecognitionStatus':'Success','NBest':[]}"))
      speaker 10 (lit "clip.mp3") world0 = (w, Raised IndexError) /\
    recvs w = 3%nat.
Proof.
  refine (proj1 (@success_frame_decides
                   (stream (reply "speech.phrase"
                                  "{'RecognitionStatus':'Success','NBest':[]}"))
                   speaker 2 10 (lit "clip.mp3")
                   (fst (open_and_send
                           (stream (reply "speech.phrase"
                                          "{'RecognitionStatus':'Success','NBest':[]}"))
                           speaker world0))
                   (reply "speech.phrase" "{'RecognitionStatus':'Success','NBest':[]}")
                   (PDict [(lit "RecognitionStatus", PStr (lit "Success"));
                           (lit "NBest", PList [])])
                   _ _ _ _ _ _ _)).
  - vm_compute. reflexivity.
  - apply stream_rounds_idle.
  - vm_compute. reflexivity.
  - reflexivity.
  - vm_compute. reflexivity.
  - vm_compute. reflexivity.
  - lia.
Defined.

(** With an advancing clock a round can only start while fewer than 15
    seconds have gone by. *)
Lemma round_starts_early (E : env) (k : nat) :
  clock_advances E ->
  Azure.before (time_time E (S k)) (deadline E) = true -> (k < 15)%nat.
Proof.
  intros Hclock Hguard. unfold deadline in Hguard. apply before_add in Hguard.
  pose proof (Qle_lt_trans _ _ _ (Hclock k) Hguard) as Hlt.
  apply Qplus_lt_r in Hlt.
  change 15%Q with (inject_Z 15) in Hlt. rewrite <- Zlt_Qlt in Hlt. lia.
Qed.

Lemma receive_bounded (E : env) :
  clock_advances E ->
  forall fuel w w' r,
    (1 <= ticks w)%nat -> (1 <= fuel)%nat -> (17 <= ticks w + fuel)%nat ->
    Azure.receive E fuel (deadline E) w = (w', r) ->
    r <> Running /\ (recvs w' <= recvs w + (16 - ticks w))%nat.
Proof.
  intros Hclock. induction fuel as [|fuel IH]; intros w w' r Ht Hf Hsum H.
  - lia.
  - simpl in H. unfold Azure.websocket_recv in H.
    unfold bind, ret, raise, lift, effect, log, sleep, now in H. simpl in H.
    destruct (ticks w) as [|k] eqn:Hk; [lia|].
    destruct (Azure.before (time_time E (S k)) (deadline E)) eqn:Hguard.
    2: { pair_eq H. cbn [recvs]. split; [discriminate | lia]. }
    apply (round_starts_early _ Hclock) in Hguard.
    simpl in H. destruct (recv E (recvs w)) as [f|e|]; simpl in H.
    2: { pair_eq H. cbn [recvs]. split; [discriminate | lia]. }
    2: { pair_eq H. cbn [recvs]. split; [discriminate | lia]. }
    assert (Hread : forall q : result pyval,
               q <> Running ->
               (mkWorld (trace w ++ [Recv f]) (uuids w) (S (S k)) (stamps w)
                        (polls w) (sends w) (S (recvs w)), q) = (w', r) ->
               r <> Running /\ (recvs w' <= recvs w + (16 - S k))%nat).
    { intros q Hq Heq. pair_eq Heq. cbn [recvs]. split; [exact Hq | lia]. }
    destruct (Azure.extract_json_body E f) as [content| | |] eqn:Hx.
    2: { eapply Hread; [|exact H]. discriminate. }
    2: { unfold Azure.extract_json_body in Hx. destruct f; [|discriminate].
         destruct (Azure.search_separator true 0 s); [|discriminate].
         destruct (json_loads E _); discriminate. }
    2: { unfold Azure.extract_json_body in Hx. destruct f; [|discriminate].
         destruct (Azure.search_separator true 0 s); [|discriminate].
         destruct (json_loads E _); discriminate. }
    assert (Hstatus : forall s, Azure.status_is content s <> Blocked /\
                                Azure.status_is content s <> Running).
    { intros s. unfold Azure.status_is.
      destruct (contains "RecognitionStatus" content) as [[|]| | |] eqn:Hc;
        simpl; try (split; discriminate).
      - destruct (getitem content (KStr "RecognitionStatus")) eqn:Hg; simpl;
          try (split; discriminate);
          destruct content; simpl in Hg; try discriminate;
          destruct (lookup _ _); discriminate.
      - destruct content; discriminate.
      - destruct content; discriminate. }
    assert (Hitem : forall v key, getitem v key <> Blocked /\ getitem v key <> Running).
    { intros v key. destruct v, key; simpl; try (split; discriminate);
        match goal with
        | |- context [match ?x with _ => _ end] => destruct x; split; discriminate
        end. }
    destruct (Azure.status_is content "Success") as [[|]| | |] eqn:Hs.
    + destruct (getitem content (KStr "NBest")) as [nbest| | |] eqn:H1.
      2: { eapply Hread; [|exact H]. discriminate. }
      2: { destruct (Hitem content (KStr "NBest")); congruence. }
      2: { destruct (Hitem content (KStr "NBest")); congruence. }
      destruct (getitem nbest (KInt 0)) as [first| | |] eqn:H2.
      2: { eapply Hread; [|exact H]. discriminate. }
      2: { destruct (Hitem nbest (KInt 0)); congruence. }
      2: { destruct (Hitem nbest (KInt 0)); congruence. }
      destruct (getitem first (KStr "Display")) as [answer| | |] eqn:H3.
      2: { eapply Hread; [|exact H]. discriminate. }
      2: { destruct (Hitem first (KStr "Display")); congruence. }
      2: { destruct (Hitem first (KStr "Display")); congruence. }
      eapply Hread; [|exact H]. destruct answer; discriminate.
    + destruct (Azure.status_is content "EndOfDictation") as [[|]| | |] eqn:He.
      * eapply Hread; [|exact H]. discriminate.
      * apply IH in H; cbn [ticks]; try lia.
        destruct H as [Hr Hv]. cbn [ticks recvs] in Hv. split; [exact Hr | lia].
      * eapply Hread; [|exact H]. discriminate.
      * destruct (Hstatus "EndOfDictation"%string); congruence.
      * destruct (Hstatus "EndOfDictation"%string); congruence.
    + eapply Hread; [|exact H]. discriminate.
    + destruct (Hstatus "Success"%string); congruence.
    + destruct (Hstatus "Success"%string); congruence.
Qed.

Lemma send_all_ended (E : env) (req_id : str) (payloads : list bytes) :
  forall w w' r,
    Azure.send_all E req_id payloads w = (w', r) -> ended r = true.
Proof.
  induction payloads as [|p ps IH]; intros w w' r H; simpl in H.
  - unfold_comp. pair_eq H. reflexivity.
  - unfold Azure.build_message, Azure.websocket_send, Azure.message in H.
    unfold_comp.
    destruct (pack_H _); simpl in H; [|pair_eq H; reflexivity].
    destruct (encode _); simpl in H; [|pair_eq H; reflexivity].
    destruct (send E (sends w)); simpl in H.
    + pair_eq H. reflexivity.
    + eapply IH. exact H.
Qed.

(** The ways [get_text] can go: it fails before a session is open, having
    read neither clock nor socket, or it leaves the [async with] block with
    the outcome of lines 139-155. *)
Lemma get_text_cases (E : env) (self : Azure.instance) (fuel : nat) (arg : str)
    (w : world) (r : result pyval) :
  Azure.get_text E self fuel arg world0 = (w, r) ->
  (ended r = true /\ recvs w = 0%nat /\ ticks w = 0%nat) \/
  exists wav w0 w3 r3,
    ticks w0 = 0%nat /\ recvs w0 = 0%nat /\
    (Azure.send_file E wav ;;;
     t0 <- now E ;;
     Azure.receive E fuel (float_add t0 15)) w0 = (w3, r3) /\
    (w, r) = close_after (w3, r3).
Proof.
  unfold Azure.get_text, Azure.with_session, Azure.mp3_to_wav. intros H.
  destruct (Azure.mp3_filename self) as [f|].
  2: { unfold_comp. pair_eq H. left. repeat split. }
  unfold bind at 1 in H. unfold ret at 1 in H. cbv beta iota in H.
  unfold bind at 1 in H. unfold bind at 1 in H. unfold effect at 1 in H.
  destruct (from_mp3_export E f _).
  { unfold_comp. pair_eq H. left. repeat split. }
  unfold log at 1 in H. cbv beta iota in H. unfold ret at 1 in H.
  cbv beta iota in H.
  unfold bind at 1 in H. unfold uuid4 at 1 in H. cbv beta iota in H.
  unfold bind at 1 in H. unfold effect at 1 in H.
  destruct (connect E _).
  { unfold raise in H. cbv beta iota in H. pair_eq H. left. repeat split. }
  unfold log at 1 in H. cbv beta iota in H.
  cbn [trace uuids ticks stamps polls sends recvs] in H.
  match type of H with
  | (let (w', r) := ?body ?x in _) = _ =>
      destruct (body x) as [w3 r3] eqn:Hbody;
      right; exists (replace f (lit ".mp3") (lit ".wav")), x, w3, r3
  end.
  split; [reflexivity|]. split; [reflexivity|]. split; [exact Hbody|].
  rewrite <- H. destruct r3; reflexivity.
Qed.

Lemma session_body_bounded (E : env) (wav : str) (fuel : nat) (w w' : world)
    (r : result pyval) :
  clock_advances E ->
  (16 <= fuel)%nat ->
  ticks w = 0%nat -> recvs w = 0%nat ->
  (Azure.send_file E wav ;;;
   t0 <- now E ;;
   Azure.receive E fuel (float_add t0 15)) w = (w', r) ->
  r <> Running /\ (recvs w' <= 15)%nat.
Proof.
  intros Hclock Hfuel Ht Hv.
  unfold Azure.send_file, Azure.bytes_from_file.
  unfold bind, ret, raise, lift, uuid4, now. intros H.
  destruct (open_rb E wav) as [e|data].
  { pair_eq H. cbn [recvs]. split; [discriminate | lia]. }
  match type of H with
  | context [Azure.send_all E ?q ?ps ?x] =>
      destruct (Azure.send_all E q ps x) as [w2 r2] eqn:Hs
  end.
  pose proof (send_all_ended _ _ _ _ Hs) as Hend.
  apply send_all_reads in Hs. cbn [ticks recvs] in Hs. destruct Hs as [Ht2 Hv2].
  destruct r2 as [[]|e| |]; try discriminate.
  - rewrite Ht2, Ht in H. fold (deadline E) in H.
    apply (receive_bounded Hclock) in H; cbn [ticks recvs] in *; try lia.
    destruct H as [Hr Hn]. split; [exact Hr | lia].
  - pair_eq H. split; [discriminate | lia].
Qed.

(** X15: with a clock that advances by at least a second from one loop
    guard to the next, the receive loop goes round at most 15 times: given
    16 rounds to run, [get_text] is never still looping - it has returned,
    raised, or waits for a frame - and it has read at most 15 frames. *)
Theorem receive_loop_is_bounded
    (E : env) (self : Azure.instance) (fuel : nat) (arg : str)
    (w : world) (r : result pyval) :
  clock_advances E ->
  (16 <= fuel)%nat ->
  Azure.get_text E self fuel arg world0 = (w, r) ->
  r <> Running /\ (recvs w <= 15)%nat.
Proof.
  intros Hclock Hfuel H.
  destruct (get_text_cases _ _ _ _ H)
    as [[Hend [Hv _]] | [wav [w0 [w3 [r3 [Ht [Hv [Hbody Hout]]]]]]]].
  - split; [|lia]. intros ->. discriminate.
  - destruct (@session_body_bounded E wav fuel w0 w3 r3 Hclock Hfuel Ht Hv Hbody)
      as [Hr Hn].
    destruct r3; injection Hout as -> ->; cbn [recvs log fst];
      split; try discriminate; try exact Hn. congruence.
Qed.

Lemma wall_clock_advances (E : env) :
  time_time E = wall_clock -> clock_advances E.
Proof.
  intros Hc k. rewrite Hc. unfold wall_clock, epoch, Qle.
  cbn [Qnum Qden Qplus inject_Z]. lia.
Qed.

Lemma receive_loop_is_bounded_witness :
  snd (Azure.get_text stream_open speaker 16 (lit "clip.mp3") world0) <> Running /\
  (recvs (fst (Azure.get_text stream_open speaker 16 (lit "clip.mp3") world0)) <= 15)%nat.
Proof.
  apply (@receive_loop_is_bounded stream_open speaker 16 (lit "clip.mp3")).
  - apply wall_clock_advances. reflexivity.
  - lia.
  - apply surjective_pairing.
Defined.

(** ** Amazon.get_text: the order of the remote calls *)

Lemma poll_grows (E : env) (job_name : str) (fuel : nat) :
  forall status w w' r,
    Amazon.poll E job_name fuel status w = (w', r) -> grows poll_event w w'.
Proof.
  induction fuel as [|fuel IH]; intros status w w' r H; simpl in H.
  - unfold_comp. pair_eq H. apply grows_refl. reflexivity.
  - unfold_comp. destruct (Qltb 60 (time_time E (ticks w))).
    + unfold Amazon.query in H; simpl in H.
      destruct (get_transcription_job E (polls w)) as [e|st].
      * pair_eq H. apply grows_refl. reflexivity.
      * destruct (Amazon.terminal st) as [[|]| | |];
          try (pair_eq H; eapply grows_step; simpl; reflexivity).
        apply IH in H. eapply grows_trans; [|exact H].
        exists [GetJob job_name; Sleep 1]; simpl.
        rewrite <- app_assoc. split; reflexivity.
    + pair_eq H. apply grows_refl. reflexivity.
Qed.

Lemma fetch_grows (E : env) (status : option pyval) (w w' : world)
    (r : result pyval) :
  Amazon.fetch E status w = (w', r) -> grows page_event w w'.
Proof.
  unfold Amazon.fetch. intros H. destruct status as [st|]; unfold_comp.
  2: { pair_eq H. apply grows_refl; reflexivity. }
  assert (Hsame : forall q : result pyval, (w, q) = (w', r) -> grows page_event w w').
  { intros q Hq. pair_eq Hq. apply grows_refl; reflexivity. }
  destruct (getitem st (KStr "TranscriptionJob")) as [job| | |]; eauto.
  destruct (getitem job (KStr "Transcript")) as [tr| | |]; eauto.
  destruct (contains "TranscriptFileUri" tr) as [[|]| | |]; eauto.
  destruct (getitem tr (KStr "TranscriptFileUri")) as [uri| | |]; eauto.
  destruct (get_page E uri) as [e|page]; eauto.
  simpl in H.
  assert (Hpage : forall q : result pyval,
             (mkWorld (trace w ++ [GetPage uri]) (uuids w) (ticks w) (stamps w)
                      (polls w) (sends w) (recvs w), q) = (w', r) ->
             grows page_event w w').
  { intros q Hq. pair_eq Hq. eapply grows_step; simpl; reflexivity. }
  destruct (json_loads E page) as [data|]; eauto.
  destruct (getitem data (KStr "results")) as [rs| | |]; eauto.
  destruct (getitem rs (KStr "transcripts")) as [ts| | |]; eauto.
  destruct (getitem ts (KInt 0)) as [f| | |]; eauto.
  destruct (getitem f (KStr "transcript")) as [t'| | |]; eauto.
Qed.

Lemma grows_poll_facts (t : list event) :
  forallb poll_event t = true ->
  count_deletes t = 0%nat /\
  (forall b k, ~ In (DeleteObject b k) t) /\ (forall u, ~ In (GetPage u) t).
Proof.
  induction t as [|e t IH]; simpl; intros H.
  - repeat split; intros; intros [].
  - apply andb_prop in H as [He Ht]. destruct (IH Ht) as [Hc [Hd Hp]].
    destruct e; simpl in He; try discriminate; simpl;
      (split; [exact Hc|]); split; intros; intros [Heq | Hin];
      try discriminate; firstorder.
Qed.

Lemma grows_page_facts (t : list event) :
  forallb page_event t = true ->
  count_deletes t = 0%nat /\ (forall b k, ~ In (DeleteObject b k) t).
Proof.
  induction t as [|e t IH]; simpl; intros H.
  - split; [reflexivity|]. intros b k [].
  - apply andb_prop in H as [He Ht]. destruct (IH Ht) as [Hc Hd].
    destruct e; simpl in He; try discriminate; simpl.
    split; [exact Hc|]. intros b k [Heq | Hin]; [discriminate | firstorder].
Qed.

(** C1, amended: when the upload, the submission, every status query and
    the delete request succeed and the poll loop ends, the uploaded object
    is deleted exactly once, behind the loop and ahead of the result fetch:
    the remote calls are the upload, the submission, the queries and
    pauses of the loop, the delete, and then at most page fetches - also
    when the fetch raises. *)
Theorem object_deleted_once_after_poll
    (C : Amazon.settings) (E : env) (fuel : nat) (data : bytes)
    (w : world) (r : result pyval) :
  put_object E = None ->
  start_transcription_job E = None ->
  delete_object E = None ->
  answers E ->
  Amazon.get_text C E fuel data world0 = (w, r) ->
  r <> Running ->
  exists w1 status t u,
    Amazon.poll E (uuid4_hex E 1) fuel None (submitted C E data) =
      (w1, Returned status) /\
    trace w1 = trace (submitted C E data) ++ t /\
    forallb poll_event t = true /\
    Amazon.fetch E status
      (mkWorld (trace w1 ++ [DeleteObject (Amazon.S3_BUCKET C) (object_key E)])
               (uuids w1) (ticks w1) (stamps w1) (polls w1) (sends w1) (recvs w1)) =
      (w, r) /\
    trace w =
      PutObject (Amazon.S3_BUCKET C) (object_key E) data ::
      StartJob (uuid4_hex E 1) (job_uri C E) ::
      t ++ DeleteObject (Amazon.S3_BUCKET C) (object_key E) :: u /\
    forallb page_event u = true /\
    count_deletes (trace w) = 1%nat.
Proof.
  intros Hput Hstart Hdel Hans Hrun Hend.
  rewrite (get_text_submitted C E fuel data Hput Hstart) in Hrun.
  destruct (Amazon.poll E (uuid4_hex E 1) fuel None (submitted C E data))
    as [w1 r1] eqn:Hpoll.
  pose proof Hpoll as Hg1. apply poll_grows in Hg1.
  destruct Hg1 as [t [Ht Hall]].
  pose proof Hpoll as Hr1. apply poll_ends in Hr1; [|exact Hans].
  destruct Hr1 as [-> | [status ->]]; unfold after_poll in Hrun.
  - injection Hrun as _ <-. contradiction.
  - rewrite Hdel in Hrun. pose proof Hrun as Hg2. apply fetch_grows in Hg2.
    destruct Hg2 as [u [Hu Hpages]]. cbn [trace] in Hu.
    destruct (grows_poll_facts _ Hall) as [Hct _].
    destruct (grows_page_facts _ Hpages) as [Hcu _].
    exists w1, status, t, u.
    split; [reflexivity|]. split; [exact Ht|]. split; [exact Hall|].
    split; [exact Hrun|].
    assert (Htrace : trace w =
              PutObject (Amazon.S3_BUCKET C) (object_key E) data ::
              StartJob (uuid4_hex E 1) (job_uri C E) ::
              t ++ DeleteObject (Amazon.S3_BUCKET C) (object_key E) :: u).
    { rewrite Hu, Ht. unfold submitted. cbn [trace].
      rewrite <- !app_assoc. reflexivity. }
    split; [exact Htrace|]. split; [exact Hpages|].
    rewrite Htrace. cbn [count_deletes]. rewrite count_deletes_app.
    cbn [count_deletes]. rewrite Hct, Hcu. reflexivity.
Qed.

Lemma object_deleted_once_after_poll_witness :
  let E := batch failed_bare in
  let out := Amazon.get_text cfg E 10 clip world0 in
  snd out = Raised KeyError /\
  exists w1 status t u,
    Amazon.poll E (uuid4_hex E 1) 10 None (submitted cfg E clip) =
      (w1, Returned status) /\
    trace w1 = trace (submitted cfg E clip) ++ t /\
    forallb poll_event t = true /\
    Amazon.fetch E status
      (mkWorld (trace w1 ++ [DeleteObject (Amazon.S3_BUCKET cfg) (object_key E)])
               (uuids w1) (ticks w1) (stamps w1) (polls w1) (sends w1) (recvs w1)) =
      (fst out, snd out) /\
    trace (fst out) =
      PutObject (Amazon.S3_BUCKET cfg) (object_key E) clip ::
      StartJob (uuid4_hex E 1) (job_uri cfg E) ::
      t ++ DeleteObject (Amazon.S3_BUCKET cfg) (object_key E) :: u /\
    forallb page_event u = true /\
    count_deletes (trace (fst out)) = 1%nat.
Proof.
  intros E out. split; [vm_compute; reflexivity|].
  apply (@object_deleted_once_after_poll cfg E 10 clip (fst out) (snd out)).
  - reflexivity.
  - reflexivity.
  - reflexivity.
  - intros k. destruct k as [|[|k]]; eexists; eexists; split; reflexivity.
  - apply surjective_pairing.
  - vm_compute. discriminate.
Defined.

(** X16: whatever the outside answers, [get_text] deletes at most once and
    only the object it uploaded, after the upload and the job submission;
    and it fetches a result page only when that object has been deleted. *)
Theorem delete_follows_upload
    (C : Amazon.settings) (E : env) (fuel : nat) (data : bytes)
    (w : world) (r : result pyval) :
  Amazon.get_text C E fuel data world0 = (w, r) ->
  (count_deletes (trace w) <= 1)%nat /\
  (forall b k, In (DeleteObject b k) (trace w) ->
     b = Amazon.S3_BUCKET C /\ k = object_key E /\
     In (PutObject b k data) (trace w) /\
     In (StartJob (uuid4_hex E 1) (job_uri C E)) (trace w)) /\
  (forall u, In (GetPage u) (trace w) -> count_deletes (trace w) = 1%nat).
Proof.
  unfold Amazon.get_text. unfold_comp. intros H.
  destruct (put_object E); simpl in H.
  { pair_eq H. simpl. repeat split; try lia; intros; contradiction. }
  destruct (start_transcription_job E); simpl in H.
  { pair_eq H. simpl. split; [lia|]. split.
    - intros b k [Heq | []]. discriminate.
    - intros u [Heq | []]. discriminate. }
  match type of H with
  | context [Amazon.poll E ?j fuel None ?x] =>
      destruct (Amazon.poll E j fuel None x) as [w1 r1] eqn:Hpoll
  end.
  apply poll_grows in Hpoll. destruct Hpoll as [t [Ht Hall]]. simpl in Ht.
  destruct (grows_poll_facts _ Hall) as [Hc [Hd Hp]].
  assert (Hearly : forall w2 q, trace w2 = trace w1 -> (w2, q) = (w, r) ->
            (count_deletes (trace w) <= 1)%nat /\
            (forall b k, In (DeleteObject b k) (trace w) ->
               b = Amazon.S3_BUCKET C /\ k = object_key E /\
               In (PutObject b k data) (trace w) /\
               In (StartJob (uuid4_hex E 1) (job_uri C E)) (trace w)) /\
            (forall u, In (GetPage u) (trace w) ->
               count_deletes (trace w) = 1%nat)).
  { intros w2 q Htr Heq. pair_eq Heq. rewrite Htr, Ht. simpl.
    split; [rewrite Hc; lia|]. split.
    - intros b k [Heq | [Heq | Hin]]; try discriminate. exfalso. eapply Hd, Hin.
    - intros u [Heq | [Heq | Hin]]; try discriminate. exfalso. eapply Hp, Hin. }
  destruct r1 as [status| | |]; try (eapply Hearly; [|exact H]; reflexivity).
  destruct (delete_object E); simpl in H.
  { eapply Hearly; [|exact H]. reflexivity. }
  apply fetch_grows in H. destruct H as [u [Hu Hpages]]. simpl in Hu.
  destruct (grows_page_facts _ Hpages) as [Hcu Hdu].
  rewrite Hu, Ht. simpl.
  rewrite !count_deletes_app. simpl. rewrite Hc, Hcu.
  split; [lia|]. split; [|intros; reflexivity].
  intros b k [Heq | [Heq | Hin]]; try discriminate.
  apply in_app_or in Hin as [Hin | Hin].
  - apply in_app_or in Hin as [Hin | [Heq | []]].
    + exfalso. eapply Hd, Hin.
    + injection Heq as <- <-. repeat split; [left | right; left]; reflexivity.
  - exfalso. eapply Hdu, Hin.
Qed.

Lemma delete_follows_upload_witness :
  let out := Amazon.get_text cfg (batch completed) 10 clip world0 in
  (count_deletes (trace (fst out)) <= 1)%nat /\
  (forall b k, In (DeleteObject b k) (trace (fst out)) ->
     b = Amazon.S3_BUCKET cfg /\ k = object_key (batch completed) /\
     In (PutObject b k clip) (trace (fst out)) /\
     In (StartJob (uuid4_hex (batch completed) 1) (job_uri cfg (batch completed)))
        (trace (fst out))) /\
  (forall u, In (GetPage u) (trace (fst out)) ->
     count_deletes (trace (fst out)) = 1%nat).
Proof.
  intros out.
  apply (@delete_follows_upload cfg (batch completed) 10 clip (fst out) (snd out)).
  apply surjective_pairing.
Defined.

(** ** Amazon.get_text: the ways through *)

Lemma poll_rounds (E : env) (job_name : str) (n : nat) :
  forall fuel status w,
    job_pending E w n ->
    exists w' status',
      Amazon.poll E job_name (n + fuel) status w =
      Amazon.poll E job_name fuel status' w' /\
      ticks w' = (ticks w + n)%nat /\ polls w' = (polls w + n)%nat /\
      trace w' = trace w ++ waiting job_name n.
Proof.
  induction n as [|n IH]; intros fuel status w Hp.
  - exists w, status. rewrite !Nat.add_0_r. unfold waiting. simpl.
    rewrite app_nil_r. repeat split.
  - destruct (Hp 0%nat ltac:(lia)) as [Hc [st [Hq Ht]]].
    rewrite !Nat.add_0_r in *.
    set (w1 := mkWorld ((trace w ++ [GetJob job_name]) ++ [Sleep 1]) (uuids w)
                       (S (ticks w)) (stamps w) (S (polls w)) (sends w) (recvs w)).
    assert (Hstep : Amazon.poll E job_name (S n + fuel) status w =
                    Amazon.poll E job_name (n + fuel) (Some st) w1).
    { simpl. unfold_comp. rewrite Hc. unfold Amazon.query; simpl.
      rewrite Hq, Ht. reflexivity. }
    destruct (IH fuel (Some st) w1) as [w' [status' [He [Hk [Hl Htr]]]]].
    { intros i Hi. destruct (Hp (S i) ltac:(lia)) as [Hc' Hq'].
      unfold w1; simpl. rewrite <- !Nat.add_succ_comm in *. split; assumption. }
    exists w', status'. rewrite Hstep, He. repeat split.
    + rewrite Hk. unfold w1; simpl. lia.
    + rewrite Hl. unfold w1; simpl. lia.
    + rewrite Htr. unfold w1, waiting; simpl.
      rewrite <- !app_assoc. reflexivity.
Qed.


Lemma poll_fails_at (E : env) (job_name : str) (fuel : nat)
    (status : option pyval) (w : world) (e : exn) :
  Qltb 60 (time_time E (ticks w)) = true ->
  get_transcription_job E (polls w) = inl e ->
  Amazon.poll E job_name (S fuel) status w =
  (mkWorld (trace w) (uuids w) (S (ticks w)) (stamps w)
           (S (polls w)) (sends w) (recvs w), Raised e).
Proof.
  intros Hc Hq. simpl. unfold_comp. rewrite Hc.
  unfold Amazon.query; simpl. rewrite Hq. reflexivity.
Qed.





(** X19: a failed upload ends the attempt before anything else happens:
    no job is submitted and nothing is deleted; a failed submission ends it
    with the object uploaded and nothing else done. *)
Theorem failure_before_polling
    (C : Amazon.settings) (E : env) (fuel : nat) (data : bytes) (e : exn) :
  (put_object E = Some e ->
   exists w, Amazon.get_text C E fuel data world0 = (w, Raised e) /\
             trace w = [] /\ polls w = 0%nat) /\
  (put_object E = None -> start_transcription_job E = Some e ->
   exists w, Amazon.get_text C E fuel data world0 = (w, Raised e) /\
             trace w = [PutObject (Amazon.S3_BUCKET C) (object_key E) data] /\
             polls w = 0%nat).
Proof.
  split.
  - intros Hput. unfold Amazon.get_text. unfold_comp. rewrite Hput. simpl.
    eexists. repeat split.
  - intros Hput Hstart. unfold Amazon.get_text. unfold_comp.
    rewrite Hput. simpl. rewrite Hstart. simpl. eexists. repeat split.
Qed.

Lemma failure_before_polling_witness :
  exists w,
    Amazon.get_text cfg batch_rejected 10 clip world0 =
      (w, Raised (Foreign "ClientError")) /\
    trace w = [PutObject (Amazon.S3_BUCKET cfg) (object_key batch_rejected) clip] /\
    polls w = 0%nat.
Proof.
  apply (proj2 (@failure_before_polling cfg batch_rejected 10 clip
                  (Foreign "ClientError"))).
  - reflexivity.
  - reflexivity.
Defined.

(** X20: when status query [n] raises, after [n] queries that found the
    job pending, the error leaves [get_text] at once: the uploaded object
    is still in the bucket, no delete having been issued. *)
Theorem query_failure_keeps_object
    (C : Amazon.settings) (E : env) (n fuel : nat) (data : bytes) (e : exn) :
  put_object E = None ->
  start_transcription_job E = None ->
  job_pending E world0 n ->
  Qltb 60 (time_time E n) = true ->
  get_transcription_job E n = inl e ->
  (n < fuel)%nat ->
  exists w,
    Amazon.get_text C E fuel data world0 = (w, Raised e) /\
    polls w = S n /\
    count_deletes (trace w) = 0%nat /\
    trace w =
      [PutObject (Amazon.S3_BUCKET C) (object_key E) data;
       StartJob (uuid4_hex E 1) (job_uri C E)] ++
      waiting (uuid4_hex E 1) n.
Proof.
  intros Hput Hstart Hpend Hclock Hq Hfuel.
  rewrite (get_text_submitted C E fuel data Hput Hstart).
  replace fuel with (n + S (fuel - S n))%nat by lia.
  destruct (@poll_rounds E (uuid4_hex E 1) n (S (fuel - S n)) None
              (submitted C E data) Hpend)
    as [w1 [status1 [He [Ht [Hp Htrace]]]]].
  simpl in Ht, Hp, Htrace. rewrite He.
  rewrite (@poll_fails_at E (uuid4_hex E 1) (fuel - S n) status1 w1 e)
    by (rewrite ?Ht, ?Hp; assumption).
  unfold after_poll.
  eexists. split; [reflexivity|]. simpl. split; [congruence|].
  rewrite Htrace. split; [|reflexivity].
  simpl. unfold waiting. clear.
  induction n as [|n IH]; simpl; [reflexivity | exact IH].
Qed.

Lemma query_failure_keeps_object_witness :
  exists w,
    Amazon.get_text cfg batch_refused 10 clip world0 =
      (w, Raised (Foreign "ClientError")) /\
    polls w = 2%nat /\
    count_deletes (trace w) = 0%nat /\
    trace w =
      [PutObject (Amazon.S3_BUCKET cfg) (object_key batch_refused) clip;
       StartJob (uuid4_hex batch_refused 1) (job_uri cfg batch_refused)] ++
      waiting (uuid4_hex batch_refused 1) 1.
Proof.
  apply (@query_failure_keeps_object cfg batch_refused 1 10 clip
           (Foreign "ClientError")).
  - reflexivity.
  - reflexivity.
  - intros i Hi. split; [apply wall_clock_late|].
    exists in_progress. destruct i as [|i]; [split; reflexivity | lia].
  - apply wall_clock_late.
  - reflexivity.
  - lia.
Defined.
